(** * The C10d rendezvous backend

  A shallow embedding of
  [torch/distributed/elastic/rendezvous/c10d_rendezvous_backend.py]:
  the base64 state codec, the compare-and-set state backend built on a
  [torch.distributed.Store], and the TCP store bootstrap.

  Conventions.
  - Python [bytes] are [list byte].
  - Python [str] is a Rocq [string] holding the UTF-8 encoding of the
    text, so [str.encode()] is [list_byte_of_string] and
    [bytes.decode()] is a validity check followed by
    [string_of_list_byte].
  - Raising is explicit: a computation returns a [result]. *)

From Stdlib Require Import NArith ZArith Lia List Bool.
From Stdlib Require Import Strings.String Strings.Byte.
From stdpp Require Import base strings gmap.
Import ListNotations.

Local Open Scope string_scope.
Local Open Scope list_scope.

(** ** Python values, truthiness and exceptions *)

Module Py.

Abbreviation bytes := (list byte).

(** The values a caller can pass where the code expects [Optional[Token]]
    ([Token] is [Any] in [dynamic_rendezvous]).  [PyObject] stands for an
    object of any other type (a list, a tuple, a user class) and carries
    the outcome of its truth test. *)
Inductive value : Type :=
| PyNone
| PyBool (b : bool)
| PyInt (z : Z)
| PyStr (s : string)
| PyBytes (b : bytes)
| PyObject (type_name : string) (truth : bool).

(** [bool(v)], as used by [if token:]. *)
Definition truthy (v : value) : bool :=
  match v with
  | PyNone => false
  | PyBool b => b
  | PyInt z => negb (z =? 0)%Z
  | PyStr s => negb (String.eqb s "")
  | PyBytes b => match b with [] => false | _ :: _ => true end
  | PyObject _ truth => truth
  end.

(** [isinstance(v, bytes)]. *)
Definition is_bytes (v : value) : bool :=
  match v with PyBytes _ => true | _ => false end.

(** The exception classes that can meet the handlers of the module. *)
Inductive exn_class : Type :=
| BaseException | KeyboardInterrupt | Exception
| ValueError | UnicodeError | UnicodeDecodeError | binascii_Error
| RuntimeError | NotImplementedError
| TypeError | LookupError | KeyError | OSError | TimeoutError | MemoryError
| NameError | UnboundLocalError
| RendezvousError | RendezvousConnectionError | RendezvousStateError.

Definition exn_class_eqb (c d : exn_class) : bool :=
  match c, d with
  | BaseException, BaseException | KeyboardInterrupt, KeyboardInterrupt
  | Exception, Exception | ValueError, ValueError
  | UnicodeError, UnicodeError | UnicodeDecodeError, UnicodeDecodeError
  | binascii_Error, binascii_Error | RuntimeError, RuntimeError
  | NotImplementedError, NotImplementedError | TypeError, TypeError
  | LookupError, LookupError | KeyError, KeyError | OSError, OSError
  | TimeoutError, TimeoutError | MemoryError, MemoryError
  | NameError, NameError | UnboundLocalError, UnboundLocalError
  | RendezvousError, RendezvousError
  | RendezvousConnectionError, RendezvousConnectionError
  | RendezvousStateError, RendezvousStateError => true
  | _, _ => false
  end.

(** The direct base class; [None] for the root. *)
Definition base_class (c : exn_class) : option exn_class :=
  match c with
  | BaseException => None
  | KeyboardInterrupt => Some BaseException
  | Exception => Some BaseException
  | ValueError => Some Exception
  | UnicodeError => Some ValueError
  | UnicodeDecodeError => Some UnicodeError
  | binascii_Error => Some ValueError
  | RuntimeError => Some Exception
  | NotImplementedError => Some RuntimeError
  | TypeError => Some Exception
  | LookupError => Some Exception
  | KeyError => Some LookupError
  | OSError => Some Exception
  | TimeoutError => Some OSError
  | MemoryError => Some Exception
  | NameError => Some Exception
  | UnboundLocalError => Some NameError
  | RendezvousError => Some Exception
  | RendezvousConnectionError => Some RendezvousError
  | RendezvousStateError => Some RendezvousError
  end.

(** [issubclass(c, d)]; the hierarchy above is five classes deep. *)
Fixpoint issubclass_fuel (fuel : nat) (c d : exn_class) : bool :=
  exn_class_eqb c d ||
  match fuel with
  | O => false
  | S fuel' =>
      match base_class c with
      | Some c' => issubclass_fuel fuel' c' d
      | None => false
      end
  end.

Definition issubclass : exn_class -> exn_class -> bool := issubclass_fuel 5.

(** A raised exception: its class and, for [raise ... from exc], the
    chained cause. *)
Inductive exn : Type :=
| Exn (cls : exn_class)
| ExnFrom (cls : exn_class) (cause : exn).

Definition class_of (e : exn) : exn_class :=
  match e with Exn c | ExnFrom c _ => c end.

Definition cause_of (e : exn) : option exn :=
  match e with Exn _ => None | ExnFrom _ c => Some c end.

(** [except (c1, c2, ...)] matches [e]. *)
Definition caught_by (e : exn) (handlers : list exn_class) : bool :=
  existsb (issubclass (class_of e)) handlers.

Inductive result (A : Type) : Type :=
| Ok (a : A)
| Raise (e : exn).
Arguments Ok {A} a.
Arguments Raise {A} e.

End Py.
Import Py.

(** ** UTF-8: [bytes.decode()] and [str.encode()] *)

Module Utf8.

Definition in_range (lo hi : N) (b : byte) : bool :=
  (lo <=? Byte.to_N b)%N && (Byte.to_N b <=? hi)%N.

Definition cont : byte -> bool := in_range 0x80 0xBF.

(** The well-formed byte sequences of the UTF-8 encoding form (no
    overlong forms, no surrogates, nothing above U+10FFFF): what the
    strict decoder behind [bytes.decode()] accepts. *)
Fixpoint valid (s : bytes) : bool :=
  match s with
  | [] => true
  | b0 :: s1 =>
      if in_range 0x00 0x7F b0 then valid s1
      else match s1 with
      | [] => false
      | b1 :: s2 =>
          if in_range 0xC2 0xDF b0 then cont b1 && valid s2
          else match s2 with
          | [] => false
          | b2 :: s3 =>
              if in_range 0xE0 0xE0 b0
              then in_range 0xA0 0xBF b1 && cont b2 && valid s3
              else if in_range 0xE1 0xEC b0 || in_range 0xEE 0xEF b0
              then cont b1 && cont b2 && valid s3
              else if in_range 0xED 0xED b0
              then in_range 0x80 0x9F b1 && cont b2 && valid s3
              else match s3 with
              | [] => false
              | b3 :: s4 =>
                  if in_range 0xF0 0xF0 b0
                  then in_range 0x90 0xBF b1 && cont b2 && cont b3 && valid s4
                  else if in_range 0xF1 0xF3 b0
                  then cont b1 && cont b2 && cont b3 && valid s4
                  else if in_range 0xF4 0xF4 b0
                  then in_range 0x80 0x8F b1 && cont b2 && cont b3 && valid s4
                  else false
              end
          end
      end
  end.

(** [b.decode()] *)
Definition decode (b : bytes) : result string :=
  if valid b then Ok (string_of_list_byte b)
  else Raise (Exn UnicodeDecodeError).

(** [s.encode()] *)
Definition encode (s : string) : bytes := list_byte_of_string s.

End Utf8.

(** ** The base64 codec behind [codecs.encode] and [codecs.decode]

    The codec is CPython's [encodings.base64_codec]: encoding is
    [base64.encodebytes], decoding is [base64.decodebytes], and both rest on
    [binascii.b2a_base64] and [binascii.a2b_base64] (non-strict mode). *)

Module Base64.

Definition alphabet : bytes :=
  list_byte_of_string
    "ABCDEFGHIJKLMNOPQRSTUVWXYZabcdefghijklmnopqrstuvwxyz0123456789+/".

Definition BASE64_PAD : byte := "="%byte.
Definition newline : byte := x0a.

Definition byte_of_N (n : N) : byte :=
  match Byte.of_N (n mod 256) with Some b => b | None => x00 end.

(** [table_b2a_base64[i]] for a 6-bit [i]. *)
Definition table_b2a_base64 (i : N) : byte :=
  nth (N.to_nat i) alphabet BASE64_PAD.

Fixpoint index_of (c : byte) (l : bytes) (i : N) : option N :=
  match l with
  | [] => None
  | x :: l' => if Byte.eqb c x then Some i else index_of c l' (N.succ i)
  end.

(** [table_a2b_base64[c]]: the 6-bit value of an alphabet character,
    [None] where the C table holds a value outside [0, 64). *)
Definition table_a2b_base64 (c : byte) : option N := index_of c alphabet 0.

Definition b2a (i : N) : byte := table_b2a_base64 (N.land i 0x3f).

(** The characters [binascii.b2a_base64] writes for its input, three
    bytes to four characters, with the padded last group. *)
Fixpoint b2a_groups (s : bytes) : bytes :=
  match s with
  | [] => []
  | [b1] =>
      let n1 := Byte.to_N b1 in
      [b2a (N.shiftr n1 2); b2a (N.shiftl (N.land n1 3) 4);
       BASE64_PAD; BASE64_PAD]
  | [b1; b2] =>
      let n1 := Byte.to_N b1 in
      let n2 := Byte.to_N b2 in
      [b2a (N.shiftr n1 2);
       b2a (N.lor (N.shiftl (N.land n1 3) 4) (N.shiftr n2 4));
       b2a (N.shiftl (N.land n2 0xf) 2); BASE64_PAD]
  | b1 :: b2 :: b3 :: rest =>
      let n1 := Byte.to_N b1 in
      let n2 := Byte.to_N b2 in
      let n3 := Byte.to_N b3 in
      b2a (N.shiftr n1 2)
      :: b2a (N.lor (N.shiftl (N.land n1 3) 4) (N.shiftr n2 4))
      :: b2a (N.lor (N.shiftl (N.land n2 0xf) 2) (N.shiftr n3 6))
      :: b2a n3
      :: b2a_groups rest
  end.

(** [binascii.b2a_base64(s)] with its courtesy newline. *)
Definition b2a_base64 (s : bytes) : bytes := b2a_groups s ++ [newline].

Definition MAXBINSIZE : nat := 57.

(** The loop of [base64.encodebytes]: one [b2a_base64] line per
    [MAXBINSIZE] input bytes; [fuel] bounds the number of lines. *)
Fixpoint encode_lines (fuel : nat) (s : bytes) : bytes :=
  match fuel with
  | O => []
  | S fuel' =>
      match s with
      | [] => []
      | _ :: _ =>
          b2a_base64 (firstn MAXBINSIZE s)
          ++ encode_lines fuel' (skipn MAXBINSIZE s)
      end
  end.

Definition encodebytes (s : bytes) : bytes := encode_lines (length s) s.

(** The loop of [binascii.a2b_base64] in non-strict mode.  Characters
    outside the alphabet are skipped; padding that completes a quad ends
    the parse at once ([goto done]); at the end of the input a dangling
    quad is an error. *)
Fixpoint a2b_loop (s : bytes) (quad_pos leftchar pads : N) (bin_data : bytes)
  : result bytes :=
  match s with
  | [] =>
      if (quad_pos =? 0)%N then Ok bin_data else Raise (Exn binascii_Error)
  | this_ch :: s' =>
      if Byte.eqb this_ch BASE64_PAD then
        if (2 <=? quad_pos)%N then
          if (4 <=? quad_pos + (pads + 1))%N then Ok bin_data
          else a2b_loop s' quad_pos leftchar (pads + 1)%N bin_data
        else a2b_loop s' quad_pos leftchar pads bin_data
      else
        match table_a2b_base64 this_ch with
        | None => a2b_loop s' quad_pos leftchar pads bin_data
        | Some v =>
            if (quad_pos =? 0)%N then a2b_loop s' 1%N v 0%N bin_data
            else if (quad_pos =? 1)%N then
              a2b_loop s' 2%N (N.land v 0x0f) 0%N
                (bin_data
                 ++ [byte_of_N (N.lor (N.shiftl leftchar 2) (N.shiftr v 4))])
            else if (quad_pos =? 2)%N then
              a2b_loop s' 3%N (N.land v 0x03) 0%N
                (bin_data
                 ++ [byte_of_N (N.lor (N.shiftl leftchar 4) (N.shiftr v 2))])
            else
              a2b_loop s' 0%N 0%N 0%N
                (bin_data ++ [byte_of_N (N.lor (N.shiftl leftchar 6) v)])
        end
  end.

Definition a2b_base64 (s : bytes) : result bytes := a2b_loop s 0 0 0 [].

Definition decodebytes (s : bytes) : result bytes := a2b_base64 s.

End Base64.

(** [codecs.encode(state, "base64")] and [codecs.decode(data, "base64")].
    [codecs] re-raises an error of the codec as a new exception of the
    same class, chained to the original one. *)
Definition codecs_encode_base64 (state : bytes) : bytes :=
  Base64.encodebytes state.

Definition codecs_decode_base64 (data : bytes) : result bytes :=
  match Base64.decodebytes data with
  | Ok state => Ok state
  | Raise exc => Raise (ExnFrom (class_of exc) exc)
  end.

(** ** The store interface

    [torch.distributed.Store] as the backend uses it: two operations, each
    of which returns the bytes the store answers with or raises.  The
    state of the store (for a TCP store, the state of the server shared by
    all peers) is threaded explicitly. *)

Class Store (S : Type) : Type := {
  store_get : S -> string -> S * result bytes;
  store_compare_set : S -> string -> string -> string -> S * result bytes
}.

(** A call made on the store: the operation name and its arguments, as
    [_call_store] receives them. *)
Inductive store_call : Type :=
| call_get (key : string)
| call_compare_set (key expected desired : string).

(** The world a backend runs in: the store it holds a reference to, and
    the calls made on that store so far (a ghost trace, oldest first). *)
Record world (S : Type) : Type := World {
  the_store : S;
  calls : list store_call
}.
Arguments World {S} the_store calls.
Arguments the_store {S} w.
Arguments calls {S} w.

Definition fresh_world {S : Type} (s : S) : world S := World s [].

(** Computations of the backend: they read and update the world and
    return or raise. *)
Definition M (S A : Type) : Type := world S -> result A * world S.

Definition ret {S A} (a : A) : M S A := fun w => (Ok a, w).

Definition raise {S A} (e : exn) : M S A := fun w => (Raise e, w).

Definition bind {S A B} (c : M S A) (k : A -> M S B) : M S B :=
  fun w =>
    match c w with
    | (Ok a, w') => k a w'
    | (Raise e, w') => (Raise e, w')
    end.

Definition lift {S A} (r : result A) : M S A := fun w => (r, w).

Notation "x <- c ;; k" := (bind c (fun x => k))
  (at level 100, c at next level, right associativity).

Fixpoint bytes_eqb (a b : bytes) : bool :=
  match a, b with
  | [], [] => true
  | x :: a', y :: b' => Byte.eqb x y && bytes_eqb a' b'
  | _, _ => false
  end.

(** ** [C10dRendezvousBackend] *)

Section Backend.

Context {S : Type} {store_ops : Store S}.

Definition _NULL_SENTINEL : string := "Y2FuaW1hZGFt".

(** The instance attributes.  [_store] is the reference to the store of
    the world; every backend of one world shares it. *)
Record C10dRendezvousBackend : Type := { _key : string }.

Definition _call_store (self : C10dRendezvousBackend) (op : store_call)
  : M S bytes :=
  fun w =>
    let '(s', r) :=
      match op with
      | call_get key => store_get (the_store w) key
      | call_compare_set key expected desired =>
          store_compare_set (the_store w) key expected desired
      end in
    let w' := World s' (calls w ++ [op]) in
    match r with
    | Ok v => (Ok v, w')
    | Raise exc =>
        if caught_by exc [ValueError; RuntimeError]
        then (Raise (ExnFrom RendezvousConnectionError exc), w')
        else (Raise exc, w')
    end.

Definition _decode_state (base64_state : bytes)
  : result (option (bytes * bytes)) :=
  if bytes_eqb base64_state (Utf8.encode _NULL_SENTINEL) then Ok None
  else
    match codecs_decode_base64 base64_state with
    | Ok state => Ok (Some (state, base64_state))
    | Raise exc =>
        if caught_by exc [binascii_Error]
        then Raise (ExnFrom RendezvousStateError exc)
        else Raise exc
    end.

Definition __init__ (run_id : string) : M S C10dRendezvousBackend :=
  if String.eqb run_id "" then raise (Exn ValueError)
  else
    let self := {| _key := "torch.rendezvous." ++ run_id |} in
    _ <- _call_store self (call_compare_set (_key self) "" _NULL_SENTINEL) ;;
    ret self.

Definition key (self : C10dRendezvousBackend) : string := _key self.

Definition get_state (self : C10dRendezvousBackend)
  : M S (option (bytes * bytes)) :=
  base64_state <- _call_store self (call_get (_key self)) ;;
  lift (_decode_state base64_state).

Definition set_state (self : C10dRendezvousBackend)
    (state : bytes) (token : value) : M S (option (bytes * bytes)) :=
  base64_state_str <- lift (Utf8.decode (codecs_encode_base64 state)) ;;
  let compare_set (token : string) : M S (option (bytes * bytes)) :=
    base64_state <-
      _call_store self
        (call_compare_set (_key self) token base64_state_str) ;;
    lift (_decode_state base64_state) in
  if truthy token then
    match token with
    | PyBytes token => token <- lift (Utf8.decode token) ;; compare_set token
    | _ => get_state self
    end
  else compare_set _NULL_SENTINEL.

End Backend.

(** ** Stores *)

(** Modelled from the spec: the shared key-value store behind
    [torch.distributed.Store], which is not part of this module.  Section 6
    of the specification gives its contract: [get(key)] blocks until [key]
    has a value and returns its current bytes (a wait that outlasts the read
    timeout surfaces as a failure of the store); [compareAndSet(key,
    expected, desired)] atomically writes [desired] iff the current value
    equals [expected] and always returns the resulting current value.  A
    key that was never written has the store's "unset" default, the empty
    string, as its current value. *)
Definition current_value (m : gmap string bytes) (key : string) : bytes :=
  default [] (m !! key).

(** Modelled from the spec: the two operations of the shared store, as
    section 6 of the specification states them (see [current_value]). *)
#[export] Instance kv_store : Store (gmap string bytes) := {
  store_get m key :=
    match m !! key with
    | Some v => (m, Ok v)
    | None => (m, Raise (Exn RuntimeError))
    end;
  store_compare_set m key expected desired :=
    if bytes_eqb (current_value m key) (Utf8.encode expected)
    then (<[key := Utf8.encode desired]> m, Ok (Utf8.encode desired))
    else (m, Ok (current_value m key))
}.

(** A store whose every operation raises the exception it holds: a store
    client that has lost its server, or a [Store] subclass of the caller. *)
Record failing_store : Type := FailingStore { failure : exn }.

#[export] Instance failing_store_ops : Store failing_store := {
  store_get s _ := (s, Raise (failure s));
  store_compare_set s _ _ _ := (s, Raise (failure s))
}.

(** ** Store bootstrap and [create_backend] *)

(** [RendezvousParameters] of [api]: the fields and the configuration
    dictionary this module reads. *)
Record RendezvousParameters : Type := {
  endpoint : string;
  run_id : string;
  config : gmap string string
}.

(** [params.get(key, default)] *)
Definition get (params : RendezvousParameters) (key default : string)
  : string :=
  match config params !! key with Some v => v | None => default end.

(** What the module takes from [api], [utils] and [torch.distributed],
    none of which it defines: the typed readers of the configuration, the
    endpoint parser, the hostname test and the [TCPStore] constructor
    (host, port, [is_master], timeout in seconds), each at the value it
    returns. *)
Class Environment (S : Type) : Type := {
  get_as_bool : RendezvousParameters -> string -> option bool;
  get_as_int : RendezvousParameters -> string -> Z -> Z;
  parse_rendezvous_endpoint : string -> Z -> string * Z;
  _matches_machine_hostname : string -> bool;
  TCPStore : string -> Z -> bool -> Z -> result S
}.

(** [str.strip()] and [str.lower()] on the UTF-8 form of a string.  The
    white space is that of [str.isspace]; [lower] maps the ASCII capitals
    and leaves every other code point alone (no code point outside ASCII
    lowers to a letter of ["tcp"]). *)
Definition whitespace : list bytes :=
  [[x09]; [x0a]; [x0b]; [x0c]; [x0d]; [x1c]; [x1d]; [x1e]; [x1f]; [x20];
   [xc2; x85]; [xc2; xa0]; [xe1; x9a; x80];
   [xe2; x80; x80]; [xe2; x80; x81]; [xe2; x80; x82]; [xe2; x80; x83];
   [xe2; x80; x84]; [xe2; x80; x85]; [xe2; x80; x86]; [xe2; x80; x87];
   [xe2; x80; x88]; [xe2; x80; x89]; [xe2; x80; x8a];
   [xe2; x80; xa8]; [xe2; x80; xa9]; [xe2; x80; xaf];
   [xe2; x81; x9f]; [xe3; x80; x80]].

Fixpoint drop_prefix (p s : bytes) : option bytes :=
  match p, s with
  | [], _ => Some s
  | x :: p', y :: s' => if Byte.eqb x y then drop_prefix p' s' else None
  | _ :: _, [] => None
  end.

Fixpoint drop_one_of (ps : list bytes) (s : bytes) : option bytes :=
  match ps with
  | [] => None
  | p :: ps' =>
      match drop_prefix p s with
      | Some s' => Some s'
      | None => drop_one_of ps' s
      end
  end.

Fixpoint lstrip_with (ws : list bytes) (fuel : nat) (s : bytes) : bytes :=
  match fuel with
  | O => s
  | S fuel' =>
      match drop_one_of ws s with
      | Some s' => lstrip_with ws fuel' s'
      | None => s
      end
  end.

Definition strip (s : string) : string :=
  let b := list_byte_of_string s in
  let b := lstrip_with whitespace (length b) b in
  let b := rev (lstrip_with (map (@rev byte) whitespace) (length b) (rev b)) in
  string_of_list_byte b.

Definition lower_byte (b : byte) : byte :=
  if Utf8.in_range 0x41 0x5A b then Base64.byte_of_N (Byte.to_N b + 32)
  else b.

Definition lower (s : string) : string :=
  string_of_list_byte (map lower_byte (list_byte_of_string s)).

Section Bootstrap.

Context {S : Type} {store_ops : Store S} {env : Environment S}.

(** The loop [for is_server in [is_host, False]] of [_create_tcp_store],
    over the roles still to try.  The second component lists the roles in
    which the [TCPStore] constructor was called, in order. *)
Fixpoint connect (host : string) (port : Z) (read_timeout : Z)
    (cfg_is_host : option bool) (roles : list bool)
  : result S * list bool :=
  match roles with
  | [] => (Raise (Exn UnboundLocalError), [])
  | is_server :: roles' =>
      match TCPStore host port is_server read_timeout with
      | Ok store => (Ok store, [is_server])
      | Raise exc =>
          if caught_by exc [ValueError; RuntimeError] then
            if negb is_server
               || match cfg_is_host with Some _ => true | None => false end
            then (Raise (ExnFrom RendezvousConnectionError exc), [is_server])
            else
              let '(r, tried) :=
                connect host port read_timeout cfg_is_host roles' in
              (r, is_server :: tried)
          else (Raise exc, [is_server])
      end
  end.

Definition _create_tcp_store (params : RendezvousParameters)
  : result S * list bool :=
  let '(host, port) := parse_rendezvous_endpoint (endpoint params) 29500 in
  let cfg_is_host := get_as_bool params "is_host" in
  let is_host :=
    match cfg_is_host with
    | Some b => b
    | None => _matches_machine_hostname host
    end in
  let read_timeout := get_as_int params "read_timeout" 60 in
  if (read_timeout <=? 0)%Z then (Raise (Exn ValueError), [])
  else connect host port read_timeout cfg_is_host [is_host; false].

(** The outcome of [create_backend]: the backend and the world of its
    store, or the exception raised; with the roles in which the
    [TCPStore] constructor was called. *)
Definition create_backend (params : RendezvousParameters)
  : result (C10dRendezvousBackend * world S) * list bool :=
  let store_type := lower (strip (get params "store_type" "tcp")) in
  if negb (String.eqb store_type "tcp") then (Raise (Exn ValueError), [])
  else
    match _create_tcp_store params with
    | (Raise e, tried) => (Raise e, tried)
    | (Ok store, tried) =>
        match __init__ (run_id params) (fresh_world store) with
        | (Ok self, w) => (Ok (self, w), tried)
        | (Raise e, _) => (Raise e, tried)
        end
    end.

End Bootstrap.

(** ** Vocabulary of the statements *)

(** The text [set_state] hands to the store for [state]:
    [codecs.encode(state, "base64").decode()]. *)
Definition encoded_state (state : bytes) : string :=
  string_of_list_byte (codecs_encode_base64 state).

Definition is_ascii (b : byte) : bool := Utf8.in_range 0 0x7f b.

(** Lines 93 to 95 of [set_state]: the compare-and-set and the decoding
    of what the store answers. *)
Definition compare_set_and_decode {S : Type} {store_ops : Store S}
    (self : C10dRendezvousBackend) (token base64_state_str : string)
  : M S (option (bytes * bytes)) :=
  base64_state <-
    _call_store self (call_compare_set (_key self) token base64_state_str) ;;
  lift (_decode_state base64_state).

(** A store that already holds the sentinel for run id ["job-42"], the
    backend over it, and the payload of the specification's scenario. *)
Definition job42 : C10dRendezvousBackend :=
  {| _key := "torch.rendezvous.job-42" |}.

Definition seeded_store : gmap string bytes :=
  {[ "torch.rendezvous.job-42" := Utf8.encode _NULL_SENTINEL ]}.

Definition seeded : world (gmap string bytes) := fresh_world seeded_store.

Definition epoch1 : bytes := list_byte_of_string "group-epoch-1".
Definition epoch2 : bytes := list_byte_of_string "group-epoch-2".

(** What the store answers to a call, before [_call_store] looks at it. *)
Definition store_answer {S : Type} {store_ops : Store S}
    (op : store_call) (s : S) : result bytes :=
  snd (match op with
       | call_get key => store_get s key
       | call_compare_set key expected desired =>
           store_compare_set s key expected desired
       end).

(** The key a store call is made on. *)
Definition call_key (c : store_call) : string :=
  match c with
  | call_get key => key
  | call_compare_set key _ _ => key
  end.

(** The exception a computation raised, and its class. *)
Definition raised {A : Type} (r : result A) : option exn :=
  match r with Raise e => Some e | Ok _ => None end.

(** [r] raised an instance of class [c] (or of a subclass of [c]). *)
Definition raises {A : Type} (c : exn_class) (r : result A) : bool :=
  match r with Raise e => issubclass (class_of e) c | Ok _ => false end.

(** An environment with fixed answers: the configuration readers return
    [cfg_is_host] and [read_timeout], the endpoint is its own host name,
    the hostname test answers [matches], and the outcome of the
    [TCPStore] constructor depends on the role only. *)
Definition fixed_env {S : Type} (cfg_is_host : option bool) (matches : bool)
    (read_timeout : Z) (tcp : bool -> result S) : Environment S := {|
  get_as_bool _ _ := cfg_is_host;
  get_as_int _ _ _ := read_timeout;
  parse_rendezvous_endpoint ep default_port := (ep, default_port);
  _matches_machine_hostname _ := matches;
  TCPStore _ _ is_master _ := tcp is_master
|}.

(** The parameters of the specification's scenario. *)
Definition job42_params : RendezvousParameters :=
  {| endpoint := "node0"; run_id := "job-42"; config := ∅ |}.

(** A [TCPStore] constructor that fails with [exc] in the server role and
    connects to an empty store in the client role. *)
Definition server_fails (exc : exn) (is_master : bool)
  : result (gmap string bytes) :=
  if is_master then Raise exc else Ok ∅.

(** ** Enumerating bytes

    Facts about one or two bytes are checked on all 256 (or 65536) of
    them by evaluation. *)

Definition N_below (n : nat) : list N := map N.of_nat (seq 0 n).

Definition all_bytes : bytes := map Base64.byte_of_N (N_below 256).

(** The checks behind the decoding of a group: the alphabet tables are
    inverse to each other on 6-bit values, and the shifts of the decoder
    undo those of the encoder.  [first_byte] and [second_byte] also give
    the bits the decoder carries over to the next character. *)
Section Base64Checks.

Import Base64.

Definition data_ok (j : N) : bool :=
  negb (Byte.eqb (table_b2a_base64 j) BASE64_PAD)
  && match table_a2b_base64 (table_b2a_base64 j) with
     | Some k => (k =? j)%N
     | None => false
     end
  && Utf8.in_range 0 0x7f (table_b2a_base64 j).

Definition first_byte (b1 b2 : byte) : bool :=
  Byte.eqb
    (byte_of_N
       (N.lor
          (N.shiftl (N.land (N.shiftr (Byte.to_N b1) 2) 0x3f) 2)
          (N.shiftr
             (N.land
                (N.lor (N.shiftl (N.land (Byte.to_N b1) 3) 4)
                   (N.shiftr (Byte.to_N b2) 4))
                0x3f) 4))) b1
  && (N.land
        (N.land
           (N.lor (N.shiftl (N.land (Byte.to_N b1) 3) 4)
              (N.shiftr (Byte.to_N b2) 4))
           0x3f) 0x0f =? N.shiftr (Byte.to_N b2) 4)%N.

Definition first_byte_last (b1 : byte) : bool :=
  Byte.eqb
    (byte_of_N
       (N.lor
          (N.shiftl (N.land (N.shiftr (Byte.to_N b1) 2) 0x3f) 2)
          (N.shiftr
             (N.land (N.shiftl (N.land (Byte.to_N b1) 3) 4) 0x3f) 4))) b1.

Definition second_byte (b2 b3 : byte) : bool :=
  Byte.eqb
    (byte_of_N
       (N.lor
          (N.shiftl (N.shiftr (Byte.to_N b2) 4) 4)
          (N.shiftr
             (N.land
                (N.lor (N.shiftl (N.land (Byte.to_N b2) 0xf) 2)
                   (N.shiftr (Byte.to_N b3) 6))
                0x3f) 2))) b2
  && (N.land
        (N.land
           (N.lor (N.shiftl (N.land (Byte.to_N b2) 0xf) 2)
              (N.shiftr (Byte.to_N b3) 6))
           0x3f) 0x03 =? N.shiftr (Byte.to_N b3) 6)%N.

Definition second_byte_last (b2 : byte) : bool :=
  Byte.eqb
    (byte_of_N
       (N.lor
          (N.shiftl (N.shiftr (Byte.to_N b2) 4) 4)
          (N.shiftr
             (N.land (N.shiftl (N.land (Byte.to_N b2) 0xf) 2) 0x3f) 2))) b2.

Definition third_byte (b3 : byte) : bool :=
  Byte.eqb
    (byte_of_N
       (N.lor (N.shiftl (N.shiftr (Byte.to_N b3) 6) 6)
          (N.land (Byte.to_N b3) 0x3f)))
    b3.

End Base64Checks.

(** ** Sequences of calls

    The calls that peers make on the backends of one run id.  All
    backends of a run id have the same key and share the store of the
    world, so a sequence of calls stands for any interleaving of the
    peers' calls. *)
Inductive backend_call : Type :=
| construct
| call_get_state
| call_set_state (state : bytes) (token : value).

Definition backend_of (run_id : string) : C10dRendezvousBackend :=
  {| _key := "torch.rendezvous." ++ run_id |}.

Definition run_call {S : Type} {store_ops : Store S} (run_id : string)
    (w : world S) (c : backend_call) : world S :=
  match c with
  | construct => snd (__init__ run_id w)
  | call_get_state => snd (get_state (backend_of run_id) w)
  | call_set_state state token =>
      snd (set_state (backend_of run_id) state token w)
  end.

Definition run_calls {S : Type} {store_ops : Store S} (run_id : string)
    (cs : list backend_call) (w : world S) : world S :=
  fold_left (run_call run_id) cs w.

(** The values the backend itself puts under its key: the sentinel, or
    the encoded form of a state. *)
Definition written_by_backend (v : bytes) : Prop :=
  v = Utf8.encode _NULL_SENTINEL \/ exists x, v = codecs_encode_base64 x.

(** The characters the base64 decoder skips: neither in the alphabet nor
    the padding character. *)
Definition skipped (c : byte) : bool :=
  negb (Byte.eqb c Base64.BASE64_PAD)
  && match Base64.table_a2b_base64 c with Some _ => false | None => true end.

Definition without_skipped (s : bytes) : bytes :=
  List.filter (fun c => negb (skipped c)) s.

(** The encoded form of ["group-epoch-1"] with a space and a star put in,
    its newline moved and its end of line left out. *)
Definition epoch1_with_foreign_characters : bytes :=
  list_byte_of_string "Z3Jv dXAt*ZXBv
Y2gtMQ==".

(** The white space of the ASCII range, as [str.isspace] has it. *)
Definition ascii_space (c : byte) : bool :=
  existsb (Byte.eqb c) [x09; x0a; x0b; x0c; x0d; x1c; x1d; x1e; x1f; x20].

(** Parameters that ask for the store type [" TCP"] followed by a
    newline. *)
Definition loud_tcp_params : RendezvousParameters :=
  {| endpoint := "node0"; run_id := "job-42";
     config := {[ "store_type" := string_of_list_byte
                                     [x20; x54; x43; x50; x0a] ]} |}.

(** * Properties *)

(** ** Bytes *)

Lemma In_N_below (n : nat) (i : N) : (i < N.of_nat n)%N -> In i (N_below n).
Proof.
  intros Hi. unfold N_below. apply in_map_iff.
  exists (N.to_nat i). split; [apply N2Nat.id|].
  apply in_seq. lia.
Qed.

Lemma all_bytes_complete (b : byte) : In b all_bytes.
Proof.
  unfold all_bytes. apply in_map_iff. exists (Byte.to_N b). split.
  - unfold Base64.byte_of_N.
    pose proof (Byte.to_N_bounded b) as Hb.
    rewrite N.mod_small by lia. now rewrite Byte.of_to_N.
  - apply In_N_below. pose proof (Byte.to_N_bounded b). lia.
Qed.

Lemma forall_byte (P : byte -> bool) :
  forallb P all_bytes = true -> forall b, P b = true.
Proof.
  intros H b. rewrite forallb_forall in H. apply H, all_bytes_complete.
Qed.

Lemma forall_byte2 (P : byte -> byte -> bool) :
  forallb (fun a => forallb (P a) all_bytes) all_bytes = true ->
  forall a b, P a b = true.
Proof.
  intros H a b. apply forall_byte. revert a. now apply forall_byte.
Qed.

Lemma bytes_eqb_eq (a b : bytes) : bytes_eqb a b = true <-> a = b.
Proof.
  revert b. induction a as [|x a IH]; intros [|y b]; simpl; try easy.
  rewrite andb_true_iff, IH. split.
  - intros [Hxy ->]. now rewrite (Byte.byte_dec_bl _ _ Hxy).
  - intros [= -> ->]. split; [now apply Byte.byte_dec_lb|reflexivity].
Qed.

Lemma bytes_eqb_refl (a : bytes) : bytes_eqb a a = true.
Proof. now apply bytes_eqb_eq. Qed.

Lemma bytes_eqb_neq (a b : bytes) : a <> b -> bytes_eqb a b = false.
Proof.
  intros Hne. destruct (bytes_eqb a b) eqn:E; [|reflexivity].
  now apply bytes_eqb_eq in E.
Qed.

(** ** The base64 codec decodes what it encodes *)

Section Base64RoundTrip.

Import Base64.

Lemma data_ok_all : forallb data_ok (N_below 64) = true.
Proof. vm_compute. reflexivity. Qed.

Lemma land_63_below (i : N) : (N.land i 0x3f < 64)%N.
Proof.
  change 0x3f%N with (N.ones 6). rewrite N.land_ones.
  apply N.mod_lt. discriminate.
Qed.

Lemma b2a_data_ok (i : N) : data_ok (N.land i 0x3f) = true.
Proof.
  pose proof data_ok_all as H. rewrite forallb_forall in H.
  apply H, In_N_below. apply land_63_below.
Qed.

Lemma b2a_not_pad (i : N) : Byte.eqb (b2a i) BASE64_PAD = false.
Proof.
  pose proof (b2a_data_ok i) as H. unfold data_ok in H.
  apply andb_true_iff in H as [H _]. apply andb_true_iff in H as [H _].
  now apply negb_true_iff in H.
Qed.

Lemma a2b_b2a (i : N) : table_a2b_base64 (b2a i) = Some (N.land i 0x3f).
Proof.
  pose proof (b2a_data_ok i) as H. unfold data_ok in H.
  apply andb_true_iff in H as [H _]. apply andb_true_iff in H as [_ H].
  unfold b2a. destruct (table_a2b_base64 _) as [k|]; [|discriminate].
  now apply N.eqb_eq in H as ->.
Qed.

Lemma b2a_ascii (i : N) : Utf8.in_range 0 0x7f (b2a i) = true.
Proof.
  pose proof (b2a_data_ok i) as H. unfold data_ok in H.
  now apply andb_true_iff in H as [_ H].
Qed.

(** One step of the decoder on a character the encoder wrote. *)
Lemma a2b_loop_data (i : N) (s : bytes) (quad_pos leftchar pads : N)
    (bin_data : bytes) :
  a2b_loop (b2a i :: s) quad_pos leftchar pads bin_data =
  let v := N.land i 0x3f in
  if (quad_pos =? 0)%N then a2b_loop s 1%N v 0%N bin_data
  else if (quad_pos =? 1)%N then
    a2b_loop s 2%N (N.land v 0x0f) 0%N
      (bin_data ++ [byte_of_N (N.lor (N.shiftl leftchar 2) (N.shiftr v 4))])
  else if (quad_pos =? 2)%N then
    a2b_loop s 3%N (N.land v 0x03) 0%N
      (bin_data ++ [byte_of_N (N.lor (N.shiftl leftchar 4) (N.shiftr v 2))])
  else
    a2b_loop s 0%N 0%N 0%N
      (bin_data ++ [byte_of_N (N.lor (N.shiftl leftchar 6) v)]).
Proof.
  cbn [a2b_loop]. rewrite b2a_not_pad, a2b_b2a. reflexivity.
Qed.

Lemma a2b_loop_newline (s : bytes) (quad_pos leftchar pads : N)
    (bin_data : bytes) :
  a2b_loop (newline :: s) quad_pos leftchar pads bin_data =
  a2b_loop s quad_pos leftchar pads bin_data.
Proof. reflexivity. Qed.

Lemma first_byte_all (b1 b2 : byte) : first_byte b1 b2 = true.
Proof. apply forall_byte2. vm_compute. reflexivity. Qed.

Lemma second_byte_all (b2 b3 : byte) : second_byte b2 b3 = true.
Proof. apply forall_byte2. vm_compute. reflexivity. Qed.

Lemma first_byte_last_all (b1 : byte) : first_byte_last b1 = true.
Proof. apply forall_byte. vm_compute. reflexivity. Qed.

Lemma second_byte_last_all (b2 : byte) : second_byte_last b2 = true.
Proof. apply forall_byte. vm_compute. reflexivity. Qed.

Lemma third_byte_all (b3 : byte) : third_byte b3 = true.
Proof. apply forall_byte. vm_compute. reflexivity. Qed.

Lemma list_ind3 {A : Type} (P : list A -> Prop) :
  P [] -> (forall a, P [a]) -> (forall a b, P [a; b]) ->
  (forall a b c l, P l -> P (a :: b :: c :: l)) ->
  forall l, P l.
Proof.
  intros H0 H1 H2 H3. fix IH 1.
  intros [|a [|b [|c l]]]; [exact H0|apply H1|apply H2|apply H3, IH].
Qed.

Ltac decode_step :=
  rewrite a2b_loop_data; cbv zeta; cbn [N.eqb Pos.eqb].

(** A full group: four characters give back three bytes and leave the
    decoder at the start of a quad. *)
Lemma a2b_loop_group (b1 b2 b3 : byte) (s rest out : bytes) :
  a2b_loop (b2a_groups (b1 :: b2 :: b3 :: s) ++ rest) 0 0 0 out =
  a2b_loop (b2a_groups s ++ rest) 0 0 0 (out ++ [b1; b2; b3]).
Proof.
  cbn [b2a_groups app]. cbv zeta.
  pose proof (first_byte_all b1 b2) as H12.
  pose proof (second_byte_all b2 b3) as H23.
  pose proof (third_byte_all b3) as H3.
  unfold first_byte in H12. unfold second_byte in H23.
  unfold third_byte in H3.
  apply andb_true_iff in H12 as [E1 F1]. apply andb_true_iff in H23 as [E2 F2].
  apply Byte.byte_dec_bl in E1, E2, H3. apply N.eqb_eq in F1, F2.
  do 2 decode_step. rewrite E1, F1.
  decode_step. rewrite E2, F2.
  decode_step. rewrite H3.
  now rewrite <- !app_assoc.
Qed.

Lemma a2b_loop_groups_full (s : bytes) :
  (exists k, length s = 3 * k) ->
  forall rest out,
    a2b_loop (b2a_groups s ++ rest) 0 0 0 out = a2b_loop rest 0 0 0 (out ++ s).
Proof.
  induction s as [| a | a b | a b c s IH] using list_ind3;
    intros [k Hk] rest out; cbn [length] in Hk.
  - now rewrite app_nil_r.
  - lia.
  - lia.
  - rewrite a2b_loop_group, IH by (exists (k - 1); lia).
    now rewrite <- app_assoc.
Qed.

(** A whole line, padded or not, decodes to its bytes; after padding the
    decoder stops without reading further. *)
Lemma a2b_loop_line (s out : bytes) :
  a2b_loop (b2a_base64 s) 0 0 0 out = Ok (out ++ s).
Proof.
  revert out. unfold b2a_base64.
  induction s as [| b1 | b1 b2 | b1 b2 b3 s IH] using list_ind3; intros out.
  - now rewrite app_nil_r.
  - cbn [b2a_groups app]. cbv zeta.
    pose proof (first_byte_last_all b1) as H1. unfold first_byte_last in H1.
    apply Byte.byte_dec_bl in H1.
    do 2 decode_step. now rewrite H1.
  - cbn [b2a_groups app]. cbv zeta.
    pose proof (first_byte_all b1 b2) as H12. unfold first_byte in H12.
    apply andb_true_iff in H12 as [E1 F1].
    apply Byte.byte_dec_bl in E1. apply N.eqb_eq in F1.
    pose proof (second_byte_last_all b2) as H2.
    unfold second_byte_last in H2. apply Byte.byte_dec_bl in H2.
    do 2 decode_step. rewrite E1, F1. decode_step. rewrite H2.
    now rewrite <- app_assoc.
  - rewrite a2b_loop_group, IH. now rewrite <- app_assoc.
Qed.

Lemma a2b_loop_full_line (s rest out : bytes) :
  (exists k, length s = 3 * k) ->
  a2b_loop (b2a_base64 s ++ rest) 0 0 0 out = a2b_loop rest 0 0 0 (out ++ s).
Proof.
  intros Hs. unfold b2a_base64. rewrite <- app_assoc.
  now rewrite a2b_loop_groups_full.
Qed.

Lemma encode_lines_nil (fuel : nat) : encode_lines fuel [] = [].
Proof. now destruct fuel. Qed.

Lemma a2b_loop_encode_lines (fuel : nat) :
  forall s out,
    length s <= fuel ->
    a2b_loop (encode_lines fuel s) 0 0 0 out = Ok (out ++ s).
Proof.
  induction fuel as [|fuel IH]; intros s out Hlen.
  - destruct s; [|cbn in Hlen; lia]. now rewrite app_nil_r.
  - destruct s as [|b s]; [now rewrite app_nil_r|].
    cbn [encode_lines]. set (l := b :: s) in *.
    destruct (Nat.le_gt_cases (length l) MAXBINSIZE) as [Hle|Hgt].
    + rewrite firstn_all2, skipn_all2, encode_lines_nil, app_nil_r by exact Hle.
      apply a2b_loop_line.
    + rewrite a2b_loop_full_line.
      * rewrite IH.
        -- now rewrite <- app_assoc, firstn_skipn.
        -- rewrite length_skipn. subst l. cbn [length] in *.
           unfold MAXBINSIZE in *. lia.
      * exists 19. rewrite length_firstn. unfold MAXBINSIZE in *. lia.
Qed.

(** [codecs.decode(codecs.encode(x, "base64"), "base64") == x]. *)
Lemma decode_encode_base64 (x : bytes) :
  codecs_decode_base64 (codecs_encode_base64 x) = Ok x.
Proof.
  unfold codecs_decode_base64, codecs_encode_base64, decodebytes,
    a2b_base64, encodebytes.
  now rewrite a2b_loop_encode_lines.
Qed.

End Base64RoundTrip.

(** ** The encoded state is ASCII text, and is never the sentinel *)

Section EncodedState.

Import Base64.

Lemma valid_ascii (s : bytes) :
  forallb is_ascii s = true -> Utf8.valid s = true.
Proof.
  induction s as [|b s IH]; [reflexivity|].
  cbn [forallb]. intros [Hb Hs]%andb_true_iff.
  cbn [Utf8.valid]. unfold is_ascii in Hb. rewrite Hb. now apply IH.
Qed.

Lemma b2a_groups_ascii (s : bytes) : forallb is_ascii (b2a_groups s) = true.
Proof.
  induction s as [| a | a b | a b c s IH] using list_ind3;
    cbn [b2a_groups forallb]; cbv zeta; unfold is_ascii;
    rewrite ?b2a_ascii; try reflexivity.
  exact IH.
Qed.

Lemma encode_lines_ascii (fuel : nat) (s : bytes) :
  forallb is_ascii (encode_lines fuel s) = true.
Proof.
  revert s. induction fuel as [|fuel IH]; intros [|b s]; try reflexivity.
  cbn [encode_lines]. unfold b2a_base64.
  rewrite !forallb_app, b2a_groups_ascii, IH. reflexivity.
Qed.

Lemma encode_valid (x : bytes) : Utf8.valid (codecs_encode_base64 x) = true.
Proof. apply valid_ascii, encode_lines_ascii. Qed.

Lemma decode_encoded_state (x : bytes) :
  Utf8.decode (codecs_encode_base64 x) = Ok (encoded_state x).
Proof. unfold Utf8.decode. now rewrite encode_valid. Qed.

Lemma encode_encoded_state (x : bytes) :
  Utf8.encode (encoded_state x) = codecs_encode_base64 x.
Proof. apply list_byte_of_string_of_list_byte. Qed.

Lemma encode_lines_ends_with_newline (fuel : nat) (s : bytes) :
  s <> [] -> length s <= fuel ->
  exists p, encode_lines fuel s = p ++ [newline].
Proof.
  revert s. induction fuel as [|fuel IH]; intros s Hs Hlen.
  - destruct s; [congruence|cbn in Hlen; lia].
  - destruct s as [|b s]; [congruence|].
    cbn [encode_lines]. set (l := b :: s) in *.
    destruct (skipn MAXBINSIZE l) as [|c r] eqn:Hskip.
    + rewrite encode_lines_nil, app_nil_r. unfold b2a_base64. eauto.
    + destruct (IH (c :: r)) as [p Hp]; [congruence| |].
      * rewrite <- Hskip, length_skipn. subst l. cbn [length] in *.
        unfold MAXBINSIZE. lia.
      * rewrite Hp, app_assoc. eauto.
Qed.

Lemma encode_ends_with_newline (x : bytes) :
  x <> [] -> exists p, codecs_encode_base64 x = p ++ [newline].
Proof.
  intros Hx. now apply encode_lines_ends_with_newline.
Qed.

Lemma encode_not_sentinel (x : bytes) :
  codecs_encode_base64 x <> Utf8.encode _NULL_SENTINEL.
Proof.
  destruct x as [|b x]; [discriminate|].
  destruct (encode_ends_with_newline (b :: x)) as [p Hp]; [discriminate|].
  rewrite Hp. intros H. apply (f_equal (fun l => List.last l x00)) in H.
  rewrite List.last_last in H. discriminate H.
Qed.

Lemma _decode_state_encode (x : bytes) :
  _decode_state (codecs_encode_base64 x) =
  Ok (Some (x, codecs_encode_base64 x)).
Proof.
  unfold _decode_state.
  rewrite bytes_eqb_neq by apply encode_not_sentinel.
  now rewrite decode_encode_base64.
Qed.

End EncodedState.

(** ** How [set_state] dispatches on its token *)

Section SetState.

Context {S : Type} {store_ops : Store S}.
Implicit Types (self : C10dRendezvousBackend) (w : world S).

Lemma _call_store_calls self op w :
  calls (snd (_call_store self op w)) = calls w ++ [op].
Proof.
  unfold _call_store.
  destruct op; [destruct (store_get _ _) as [s' [v|e]]
               |destruct (store_compare_set _ _ _ _) as [s' [v|e]]];
    try reflexivity; destruct (caught_by _ _); reflexivity.
Qed.

Lemma get_state_calls self w :
  calls (snd (get_state self w)) = calls w ++ [call_get (_key self)].
Proof.
  unfold get_state, bind, lift.
  pose proof (_call_store_calls self (call_get (_key self)) w) as H.
  destruct (_call_store _ _ _) as [[v|e] w']; exact H.
Qed.

Lemma compare_set_and_decode_calls self token desired w :
  calls (snd (compare_set_and_decode self token desired w)) =
  calls w ++ [call_compare_set (_key self) token desired].
Proof.
  unfold compare_set_and_decode, bind, lift.
  pose proof (_call_store_calls self
                (call_compare_set (_key self) token desired) w) as H.
  destruct (_call_store _ _ _) as [[v|e] w']; exact H.
Qed.

(** A token that decodes is the UTF-8 form of the text it decodes to: the
    store compares the bytes of the token with the value it holds. *)
Lemma encode_decoded_token (b : bytes) (t : string) :
  Utf8.decode b = Ok t -> Utf8.encode t = b.
Proof.
  unfold Utf8.decode, Utf8.encode. destruct (Utf8.valid b); [|discriminate].
  intros [= <-]. apply list_byte_of_string_of_list_byte.
Qed.

Lemma set_state_falsy self state token w :
  truthy token = false ->
  set_state self state token w =
  compare_set_and_decode self _NULL_SENTINEL (encoded_state state) w.
Proof.
  intros Hf. unfold set_state, bind at 1, lift at 1.
  rewrite decode_encoded_state, Hf. reflexivity.
Qed.

Lemma set_state_shortcut self state token w :
  truthy token = true -> is_bytes token = false ->
  set_state self state token w = get_state self w.
Proof.
  intros Ht Hb. unfold set_state, bind at 1, lift at 1.
  rewrite decode_encoded_state, Ht.
  destruct token; try reflexivity. discriminate Hb.
Qed.

Lemma set_state_bytes self state b t w :
  b <> [] -> Utf8.decode b = Ok t ->
  set_state self state (PyBytes b) w =
  compare_set_and_decode self t (encoded_state state) w.
Proof.
  intros Hb Ht. unfold set_state, bind at 1, lift at 1.
  rewrite decode_encoded_state.
  destruct b as [|x b]; [congruence|]. cbn [truthy].
  unfold bind at 1, lift at 1. rewrite Ht. reflexivity.
Qed.

Lemma set_state_undecodable self state b w :
  b <> [] -> Utf8.valid b = false ->
  set_state self state (PyBytes b) w = (Raise (Exn UnicodeDecodeError), w).
Proof.
  intros Hb Hv. unfold set_state, bind at 1, lift at 1.
  rewrite decode_encoded_state.
  destruct b as [|x b]; [congruence|]. cbn [truthy].
  unfold bind at 1, lift at 1, Utf8.decode. rewrite Hv. reflexivity.
Qed.

End SetState.

(** C1, as amended.  [set_state] tests the truth value of [token], not
    its presence.  A token that is absent or falsy makes the
    compare-and-set expect the sentinel; a truthy token that is not
    [bytes] makes the call return [get_state()], one read and no
    compare-and-set; a non-empty [bytes] token that decodes as text is the
    expected value of the compare-and-set. *)
Theorem C1_set_state_token_dispatch {S : Type} {store_ops : Store S}
    (self : C10dRendezvousBackend) (state : bytes) (token : value)
    (w : world S) :
  (truthy token = false ->
   calls (snd (set_state self state token w)) =
   calls w ++ [call_compare_set (_key self) _NULL_SENTINEL
                 (encoded_state state)])
  /\ (truthy token = true -> is_bytes token = false ->
      set_state self state token w = get_state self w
      /\ calls (snd (set_state self state token w)) =
         calls w ++ [call_get (_key self)])
  /\ (forall b t, token = PyBytes b -> b <> [] -> Utf8.decode b = Ok t ->
      calls (snd (set_state self state token w)) =
      calls w ++ [call_compare_set (_key self) t (encoded_state state)]).
Proof.
  repeat split.
  - intros Hf. rewrite set_state_falsy by exact Hf.
    apply compare_set_and_decode_calls.
  - now apply set_state_shortcut.
  - rewrite set_state_shortcut by assumption. apply get_state_calls.
  - intros b t -> Hb Ht. rewrite (set_state_bytes _ _ _ t) by assumption.
    apply compare_set_and_decode_calls.
Qed.

Lemma C1_set_state_token_dispatch_witness :
  calls (snd (set_state job42 epoch1 PyNone seeded)) =
  [call_compare_set "torch.rendezvous.job-42" _NULL_SENTINEL
     (encoded_state epoch1)]
  /\ set_state job42 epoch1 (PyInt 7) seeded = get_state job42 seeded
  /\ calls (snd (set_state job42 epoch1
                   (PyBytes (codecs_encode_base64 epoch2)) seeded)) =
     [call_compare_set "torch.rendezvous.job-42" (encoded_state epoch2)
        (encoded_state epoch1)].
Proof.
  split; [|split].
  - apply (proj1 (C1_set_state_token_dispatch job42 epoch1 PyNone seeded)).
    reflexivity.
  - apply (proj1 (proj2 (C1_set_state_token_dispatch job42 epoch1 (PyInt 7)
                           seeded))); reflexivity.
  - apply (proj2 (proj2 (C1_set_state_token_dispatch job42 epoch1
                           (PyBytes (codecs_encode_base64 epoch2)) seeded))
             (codecs_encode_base64 epoch2) (encoded_state epoch2)).
    + reflexivity.
    + discriminate.
    + vm_compute. reflexivity.
Defined.

(** C1 as stated fails on tokens that are present but falsy.  With the
    integer [0], which is not [bytes], the call does not return
    [get_state()]: it goes to the store with a compare-and-set.  With the
    empty [bytes], which is of the token type, the compare-and-set
    expects the sentinel and not the token. *)
Lemma C1_counterexample :
  PyInt 0 <> PyNone /\ is_bytes (PyInt 0) = false
  /\ set_state job42 epoch1 (PyInt 0) seeded <> get_state job42 seeded
  /\ calls (snd (set_state job42 epoch1 (PyInt 0) seeded)) =
     [call_compare_set "torch.rendezvous.job-42" _NULL_SENTINEL
        (encoded_state epoch1)]
  /\ is_bytes (PyBytes []) = true
  /\ Utf8.decode [] = Ok "" /\ _NULL_SENTINEL <> ""
  /\ calls (snd (set_state job42 epoch1 (PyBytes []) seeded)) =
     [call_compare_set "torch.rendezvous.job-42" _NULL_SENTINEL
        (encoded_state epoch1)].
Proof.
  split; [discriminate|]. split; [reflexivity|]. split.
  - intros H. apply (f_equal (fun r => calls (snd r))) in H.
    vm_compute in H. discriminate H.
  - split; [vm_compute; reflexivity|]. split; [reflexivity|].
    split; [reflexivity|]. split; [discriminate|]. vm_compute. reflexivity.
Qed.

(** C10.  A token that is falsy without being [None] (the empty [bytes],
    [0], [False], the empty string, an empty container) is handled as no
    token: the call is the very call made with [None], its only store
    operation is a compare-and-set that expects the sentinel, and neither
    the shortcut nor the bytes of the token come into play. *)
Theorem C10_falsy_token_as_absent {S : Type} {store_ops : Store S}
    (self : C10dRendezvousBackend) (state : bytes) (token : value)
    (w : world S) :
  truthy token = false ->
  set_state self state token w = set_state self state PyNone w
  /\ calls (snd (set_state self state token w)) =
     calls w ++ [call_compare_set (_key self) _NULL_SENTINEL
                   (encoded_state state)].
Proof.
  intros Hf. split.
  - now rewrite !set_state_falsy.
  - rewrite set_state_falsy by exact Hf. apply compare_set_and_decode_calls.
Qed.

Lemma C10_falsy_token_as_absent_witness :
  set_state job42 epoch1 (PyBytes []) seeded =
  set_state job42 epoch1 PyNone seeded
  /\ calls (snd (set_state job42 epoch1 (PyBytes []) seeded)) =
     calls seeded ++ [call_compare_set (_key job42) _NULL_SENTINEL
                        (encoded_state epoch1)].
Proof.
  apply (C10_falsy_token_as_absent job42 epoch1 (PyBytes []) seeded).
  reflexivity.
Defined.

(** C3.  For every byte sequence [x], the empty one included, the text
    [set_state] stores for [x] decodes, as the bytes the store holds, to
    [x] together with those very bytes as the token. *)
Theorem C3_decode_of_encode (x : bytes) :
  Utf8.decode (codecs_encode_base64 x) = Ok (encoded_state x)
  /\ _decode_state (Utf8.encode (encoded_state x)) =
     Ok (Some (x, Utf8.encode (encoded_state x))).
Proof.
  split; [apply decode_encoded_state|].
  rewrite encode_encoded_state. apply _decode_state_encode.
Qed.

(** C9, as amended.  The encoded form of a non-empty state ends with a
    newline; the encoded form of the empty state is the empty text.
    Either way it differs from the sentinel, so what [set_state] writes
    is never decoded as "no state". *)
Theorem C9_encoded_state_never_sentinel (x : bytes) :
  (x <> [] -> exists p, codecs_encode_base64 x = p ++ [Base64.newline])
  /\ (x = [] -> codecs_encode_base64 x = [])
  /\ Utf8.encode (encoded_state x) <> Utf8.encode _NULL_SENTINEL
  /\ _decode_state (Utf8.encode (encoded_state x)) <> Ok None.
Proof.
  split; [apply encode_ends_with_newline|].
  split; [now intros ->|].
  rewrite encode_encoded_state, _decode_state_encode.
  split; [apply encode_not_sentinel|discriminate].
Qed.

Lemma C9_encoded_state_never_sentinel_witness :
  (exists p, codecs_encode_base64 epoch1 = p ++ [Base64.newline])
  /\ codecs_encode_base64 [] = [].
Proof.
  split.
  - apply (proj1 (C9_encoded_state_never_sentinel epoch1)). discriminate.
  - apply (proj1 (proj2 (C9_encoded_state_never_sentinel []))). reflexivity.
Defined.

(** C9 as stated fails on the empty state: its encoded form is empty and
    so does not end with a newline. *)
Lemma C9_counterexample :
  codecs_encode_base64 [] = []
  /\ ~ exists p, codecs_encode_base64 [] = p ++ [Base64.newline].
Proof.
  split; [reflexivity|]. intros [p Hp]. cbn in Hp. now destruct p.
Qed.

(** ** The backend over the key-value store *)

Section OverKvStore.

Implicit Types (self : C10dRendezvousBackend) (m : gmap string bytes).

Lemma current_value_insert m key v : current_value (<[key := v]> m) key = v.
Proof. unfold current_value. now rewrite lookup_insert_eq. Qed.

Lemma kv_compare_set_and_decode self expected desired m log :
  compare_set_and_decode self expected desired (World m log) =
  let m' :=
    if bytes_eqb (current_value m (_key self)) (Utf8.encode expected)
    then <[_key self := Utf8.encode desired]> m else m in
  (_decode_state (current_value m' (_key self)),
   World m' (log ++ [call_compare_set (_key self) expected desired])).
Proof.
  unfold compare_set_and_decode, bind, lift, _call_store.
  cbn [the_store calls store_compare_set kv_store].
  destruct (bytes_eqb _ _); cbv zeta; [|reflexivity].
  now rewrite current_value_insert.
Qed.

Lemma kv_get_state self m log v :
  m !! _key self = Some v ->
  get_state self (World m log) =
  (_decode_state v, World m (log ++ [call_get (_key self)])).
Proof.
  intros Hv. unfold get_state, bind, lift, _call_store.
  cbn [the_store calls store_get kv_store]. now rewrite Hv.
Qed.

Lemma kv_init run_id m log :
  run_id <> "" ->
  let k := ("torch.rendezvous." ++ run_id)%string in
  __init__ run_id (World m log) =
  (Ok {| _key := k |},
   World (if bytes_eqb (current_value m k) []
          then <[k := Utf8.encode _NULL_SENTINEL]> m else m)
     (log ++ [call_compare_set k "" _NULL_SENTINEL])).
Proof.
  intros Hne. cbv zeta. unfold __init__.
  apply String.eqb_neq in Hne. rewrite Hne.
  unfold bind, ret, _call_store.
  cbn [the_store calls store_compare_set kv_store _key].
  change (Utf8.encode "") with (@nil byte).
  now destruct (bytes_eqb _ _).
Qed.

End OverKvStore.

(** The scenario of the specification: on a freshly constructed backend,
    [set_state(x)] without a token succeeds, and [get_state()] then
    returns [x] with the encoded form of [x] as its token. *)
Lemma fresh_backend_set_then_get (run_id : string) (x : bytes)
    (m : gmap string bytes) :
  run_id <> "" ->
  let k := ("torch.rendezvous." ++ run_id)%string in
  let self := {| _key := k |} in
  m !! k = None ->
  let w1 := snd (__init__ run_id (fresh_world m)) in
  let w2 := snd (set_state self x PyNone w1) in
  fst (set_state self x PyNone w1) = Ok (Some (x, codecs_encode_base64 x))
  /\ fst (get_state self w2) = Ok (Some (x, codecs_encode_base64 x)).
Proof.
  intros Hne k self Hnone w1 w2.
  assert (Hw1 : w1 = World (<[k := Utf8.encode _NULL_SENTINEL]> m)
                       [call_compare_set k "" _NULL_SENTINEL]).
  { subst w1. unfold fresh_world. rewrite kv_init by exact Hne.
    cbn [snd]. fold k. unfold current_value. now rewrite Hnone. }
  assert (Hset : set_state self x PyNone w1 =
                 (Ok (Some (x, codecs_encode_base64 x)),
                  World (<[k := codecs_encode_base64 x]>
                           (<[k := Utf8.encode _NULL_SENTINEL]> m))
                    [call_compare_set k "" _NULL_SENTINEL;
                     call_compare_set k _NULL_SENTINEL (encoded_state x)])).
  { rewrite Hw1, set_state_falsy by reflexivity.
    rewrite kv_compare_set_and_decode. cbv zeta. cbn [_key self].
    rewrite current_value_insert, bytes_eqb_refl, current_value_insert.
    now rewrite encode_encoded_state, _decode_state_encode. }
  subst w2. rewrite Hset. cbn [fst snd]. split; [reflexivity|].
  erewrite kv_get_state by (cbn [_key self]; apply lookup_insert_eq).
  apply _decode_state_encode.
Qed.

(** The store calls of one [set_state]: none (the token does not
    decode), one read (the shortcut) or one compare-and-set. *)
Lemma set_state_calls {S : Type} {store_ops : Store S}
    (self : C10dRendezvousBackend) (state : bytes) (token : value)
    (w : world S) :
  exists new,
    calls (snd (set_state self state token w)) = calls w ++ new
    /\ (new = []
        \/ (new = [call_get (_key self)]
            /\ set_state self state token w = get_state self w)
        \/ exists expected,
             new = [call_compare_set (_key self) expected (encoded_state state)]
             /\ set_state self state token w =
                compare_set_and_decode self expected (encoded_state state) w).
Proof.
  destruct (truthy token) eqn:Ht.
  - destruct (is_bytes token) eqn:Hb.
    + destruct token as [| | | |b|]; try discriminate Hb.
      assert (Hne : b <> []) by (destruct b; [discriminate Ht|discriminate]).
      destruct (Utf8.valid b) eqn:Hv.
      * assert (Hset := set_state_bytes self state b (string_of_list_byte b) w).
        unfold Utf8.decode in Hset. rewrite Hv in Hset.
        specialize (Hset Hne eq_refl).
        rewrite Hset, compare_set_and_decode_calls.
        eexists. split; [reflexivity|]. right. right. now eexists.
      * rewrite set_state_undecodable by assumption.
        exists []. cbn [snd]. rewrite app_nil_r. auto.
    + rewrite set_state_shortcut by assumption. rewrite get_state_calls.
      eexists. split; [reflexivity|]. right. now left.
  - rewrite set_state_falsy by assumption.
    rewrite compare_set_and_decode_calls.
    eexists. split; [reflexivity|]. right. right. now eexists.
Qed.

Lemma set_state_at_most_one_call {S : Type} {store_ops : Store S}
    (self : C10dRendezvousBackend) (state : bytes) (token : value)
    (w : world S) :
  exists new,
    calls (snd (set_state self state token w)) = calls w ++ new
    /\ length new <= 1.
Proof.
  destruct (set_state_calls self state token w)
    as (new & Hnew & [->|[[-> _]|(e & -> & _)]]);
    eexists; (split; [exact Hnew|cbn; lia]).
Qed.

(** C2.  Over the key-value store, [set_state] never makes more than one
    store call, whatever the token.  When the token is absent (or falsy)
    or is a non-empty [bytes] that decodes, the one call is a
    compare-and-set: the encoded state is written exactly when the current
    value of the key equals the expected value, and the call returns the
    value the key holds afterwards, decoded.  In particular, when the
    expected value no longer matches because a peer wrote [winner] first,
    the store is left alone and the caller gets the winner's state and
    token back, not an error. *)
Theorem C2_set_state_one_compare_and_set
    (self : C10dRendezvousBackend) (state : bytes) (token : value)
    (m : gmap string bytes) (log : list store_call) :
  (exists new,
     calls (snd (set_state self state token (World m log))) = log ++ new
     /\ length new <= 1)
  /\ forall expected : string,
       (truthy token = false /\ expected = _NULL_SENTINEL)
       \/ (exists b, token = PyBytes b /\ b <> []
                     /\ Utf8.decode b = Ok expected) ->
       let desired := encoded_state state in
       let m' :=
         if bytes_eqb (current_value m (_key self)) (Utf8.encode expected)
         then <[_key self := Utf8.encode desired]> m else m in
       set_state self state token (World m log) =
       (_decode_state (current_value m' (_key self)),
        World m' (log ++ [call_compare_set (_key self) expected desired]))
       /\ forall winner : bytes,
            current_value m (_key self) = Utf8.encode (encoded_state winner) ->
            Utf8.encode expected <> current_value m (_key self) ->
            set_state self state token (World m log) =
            (Ok (Some (winner, Utf8.encode (encoded_state winner))),
             World m (log ++ [call_compare_set (_key self) expected desired])).
Proof.
  split; [apply (set_state_at_most_one_call self state token (World m log))|].
  intros expected Htok. cbv zeta.
  assert (Hset : set_state self state token (World m log) =
                 compare_set_and_decode self expected (encoded_state state)
                   (World m log)).
  { destruct Htok as [[Hf ->]|(b & -> & Hb & Hdec)].
    - now apply set_state_falsy.
    - now apply set_state_bytes. }
  rewrite Hset, kv_compare_set_and_decode. cbv zeta.
  split; [reflexivity|].
  intros winner Hcur Hne.
  rewrite bytes_eqb_neq by congruence.
  rewrite Hcur, encode_encoded_state, _decode_state_encode. reflexivity.
Qed.

(** Two peers hold the same stale token (none: both believe nothing was
    written).  The first wrote ["group-epoch-1"]; the second, writing
    ["group-epoch-2"], gets the first one's state and token back. *)
Lemma C2_set_state_one_compare_and_set_witness :
  let m1 : gmap string bytes :=
    {[ "torch.rendezvous.job-42" := Utf8.encode (encoded_state epoch1) ]} in
  set_state job42 epoch2 PyNone (World m1 []) =
  (Ok (Some (epoch1, Utf8.encode (encoded_state epoch1))),
   World m1 [call_compare_set "torch.rendezvous.job-42" _NULL_SENTINEL
               (encoded_state epoch2)]).
Proof.
  cbv zeta.
  apply (proj2 (proj2 (C2_set_state_one_compare_and_set job42 epoch2 PyNone
                         {[ "torch.rendezvous.job-42" :=
                              Utf8.encode (encoded_state epoch1) ]} [])
                  _NULL_SENTINEL (or_introl (conj eq_refl eq_refl)))
           epoch1).
  - reflexivity.
  - vm_compute. discriminate.
Defined.

(** C4, as amended.  Construction with a non-empty run id makes exactly
    one store call, a compare-and-set that expects the empty "unset"
    default and asks for the sentinel.  A value at the key that is not
    empty is left as it is.  Over a store with nothing at the key, the
    key then holds the sentinel and [get_state()] returns [None]. *)
Theorem C4_construction_seeds_once (run_id : string)
    (m : gmap string bytes) (log : list store_call) :
  run_id <> "" ->
  let k := ("torch.rendezvous." ++ run_id)%string in
  let self := {| _key := k |} in
  exists m',
    __init__ run_id (World m log) =
    (Ok self, World m' (log ++ [call_compare_set k "" _NULL_SENTINEL]))
    /\ (forall v, m !! k = Some v -> v <> [] -> m' = m)
    /\ (m !! k = None ->
        m' = <[k := Utf8.encode _NULL_SENTINEL]> m
        /\ forall log', fst (get_state self (World m' log')) = Ok None).
Proof.
  intros Hne. cbv zeta. eexists. split; [now apply kv_init|]. split.
  - intros v Hv Hnil. unfold current_value. rewrite Hv. cbn [default].
    now rewrite bytes_eqb_neq.
  - intros Hnone. unfold current_value. rewrite Hnone. cbn [default bytes_eqb].
    split; [reflexivity|]. intros log'.
    erewrite kv_get_state by (cbn [_key]; apply lookup_insert_eq).
    reflexivity.
Qed.

Lemma C4_construction_seeds_once_witness :
  exists m',
    __init__ "job-42" (fresh_world (∅ : gmap string bytes)) =
    (Ok job42,
     World m' [call_compare_set "torch.rendezvous.job-42" "" _NULL_SENTINEL])
    /\ (forall v,
          (∅ : gmap string bytes) !! "torch.rendezvous.job-42" = Some v ->
          v <> [] -> m' = ∅)
    /\ ((∅ : gmap string bytes) !! "torch.rendezvous.job-42" = None ->
        m' = seeded_store
        /\ forall log', fst (get_state job42 (World m' log')) = Ok None).
Proof.
  apply (C4_construction_seeds_once "job-42" ∅ []). discriminate.
Defined.

(** C4 as stated fails when the value at the key is the empty one, which
    is what [set_state(b"")] stores.  A peer constructs its backend and
    writes the empty state; [get_state()] returns it.  A second
    construction for the same run id then replaces the stored value by the
    sentinel, and [get_state()] returns [None]. *)
Lemma C4_counterexample :
  let w1 := snd (__init__ "job-42" (fresh_world (∅ : gmap string bytes))) in
  let w2 := snd (set_state job42 [] PyNone w1) in
  let w3 := snd (__init__ "job-42" w2) in
  the_store w2 !! "torch.rendezvous.job-42" = Some []
  /\ fst (get_state job42 w2) = Ok (Some ([], []))
  /\ the_store w3 !! "torch.rendezvous.job-42" =
     Some (Utf8.encode _NULL_SENTINEL)
  /\ fst (get_state job42 w3) = Ok None.
Proof. vm_compute. repeat split. Qed.

(** C6, as amended.  For every non-empty run id, the backend reads and
    writes the rendezvous state under the one store key
    ["torch.rendezvous." + run_id]: that is the key of the constructed
    backend, the key of the seeding compare-and-set, and the key of every
    store call of [get_state] and [set_state]. *)
Theorem C6_store_key {S : Type} {store_ops : Store S}
    (run_id : string) (state : bytes) (token : value) (w : world S) :
  run_id <> "" ->
  let k := ("torch.rendezvous." ++ run_id)%string in
  let self := {| _key := k |} in
  (forall self', fst (__init__ run_id w) = Ok self' -> key self' = k)
  /\ calls (snd (__init__ run_id w)) =
     calls w ++ [call_compare_set k "" _NULL_SENTINEL]
  /\ calls (snd (get_state self w)) = calls w ++ [call_get k]
  /\ exists new,
       calls (snd (set_state self state token w)) = calls w ++ new
       /\ Forall (fun c => call_key c = k) new.
Proof.
  intros Hne%String.eqb_neq. cbv zeta. unfold __init__. rewrite Hne.
  set (self := {| _key := ("torch.rendezvous." ++ run_id)%string |}).
  unfold bind, ret.
  pose proof (_call_store_calls self
                (call_compare_set (_key self) "" _NULL_SENTINEL) w) as Hc.
  split; [|split; [|split]].
  - intros self'. destruct (_call_store _ _ _) as [[v|e] w']; cbn [fst].
    + now intros [= <-].
    + discriminate.
  - destruct (_call_store _ _ _) as [[v|e] w']; exact Hc.
  - apply get_state_calls.
  - destruct (set_state_calls self state token w)
      as (new & Hnew & [->|[[-> _]|(e & -> & _)]]);
      exists new + eexists; (split; [exact Hnew|]); repeat constructor.
Qed.

Lemma C6_store_key_witness :
  (forall self',
     fst (__init__ "job-42" (fresh_world (∅ : gmap string bytes))) =
     Ok self' ->
     key self' = "torch.rendezvous.job-42")
  /\ calls (snd (__init__ "job-42" (fresh_world (∅ : gmap string bytes)))) =
     [call_compare_set "torch.rendezvous.job-42" "" _NULL_SENTINEL].
Proof.
  pose proof (C6_store_key "job-42" epoch1 PyNone
                (fresh_world (∅ : gmap string bytes))) as H.
  cbv zeta in H. destruct H as (H1 & H2 & _); [discriminate|].
  split; [exact H1|exact H2].
Defined.

(** C6 as stated names the key ["rendezvous." + run_id]; the backend of
    run id ["job-42"] has another key, and reads under it. *)
Lemma C6_counterexample :
  fst (__init__ "job-42" (fresh_world (∅ : gmap string bytes))) = Ok job42
  /\ key job42 <> ("rendezvous." ++ "job-42")%string
  /\ calls (snd (get_state job42 seeded)) <>
     [call_get ("rendezvous." ++ "job-42")%string].
Proof.
  split; [vm_compute; reflexivity|]. split; [discriminate|].
  vm_compute. discriminate.
Qed.

(** ** Failures *)

Lemma a2b_loop_raise (s : bytes) :
  forall quad_pos leftchar pads out e,
    Base64.a2b_loop s quad_pos leftchar pads out = Raise e ->
    e = Exn binascii_Error.
Proof.
  induction s as [|c s IH]; intros quad_pos leftchar pads out e;
    cbn [Base64.a2b_loop].
  - destruct (quad_pos =? 0)%N; [discriminate|now intros [= <-]].
  - repeat match goal with
           | |- context [if ?b then _ else _] => destruct b
           | |- context [match ?o with Some _ => _ | None => _ end] =>
               destruct o
           end; try discriminate; apply IH.
Qed.

Lemma codecs_decode_raise (v : bytes) (e : exn) :
  codecs_decode_base64 v = Raise e ->
  e = ExnFrom binascii_Error (Exn binascii_Error).
Proof.
  unfold codecs_decode_base64, Base64.decodebytes, Base64.a2b_base64.
  destruct (Base64.a2b_loop v 0 0 0 []) as [state|exc] eqn:Hloop;
    [discriminate|].
  apply a2b_loop_raise in Hloop as ->. now intros [= <-].
Qed.

Lemma _decode_state_corrupt (v : bytes) (e : exn) :
  v <> Utf8.encode _NULL_SENTINEL ->
  codecs_decode_base64 v = Raise e ->
  _decode_state v = Raise (ExnFrom RendezvousStateError e).
Proof.
  intros Hv He. unfold _decode_state.
  rewrite bytes_eqb_neq by exact Hv. rewrite He.
  apply codecs_decode_raise in He as ->. reflexivity.
Qed.

Section Failures.

Context {S : Type} {store_ops : Store S}.
Implicit Types (self : C10dRendezvousBackend) (w : world S).

Lemma _call_store_answer self op w :
  fst (_call_store self op w) =
  match store_answer op (the_store w) with
  | Ok v => Ok v
  | Raise exc =>
      if caught_by exc [ValueError; RuntimeError]
      then Raise (ExnFrom RendezvousConnectionError exc)
      else Raise exc
  end.
Proof.
  unfold _call_store, store_answer.
  destruct op; [destruct (store_get _ _) as [s' [v|e]]
               |destruct (store_compare_set _ _ _ _) as [s' [v|e]]];
    try reflexivity; cbn [snd]; destruct (caught_by _ _); reflexivity.
Qed.

(** The result of a store call followed by the decoding of the answer:
    the shape of [get_state] and of lines 93 to 95 of [set_state]. *)
Lemma call_then_decode self op w :
  fst ((base64_state <- _call_store self op ;;
        lift (_decode_state base64_state)) w) =
  match store_answer op (the_store w) with
  | Ok v => _decode_state v
  | Raise exc =>
      if caught_by exc [ValueError; RuntimeError]
      then Raise (ExnFrom RendezvousConnectionError exc)
      else Raise exc
  end.
Proof.
  unfold bind, lift. pose proof (_call_store_answer self op w) as H.
  destruct (_call_store self op w) as [[v|e] w']; cbn [fst] in *;
    destruct (store_answer _ _) as [v'|e'];
    try destruct (caught_by _ _); try discriminate H;
    injection H as <-; reflexivity.
Qed.

End Failures.

(** C7, as amended.  Let [op] be the store call that [get_state] or
    [set_state] makes.  If the store raises a [ValueError] or a
    [RuntimeError] (or an instance of a subclass), the call raises
    [RendezvousConnectionError] chained to it; if the store raises
    anything else, that exception leaves the call unchanged.  If the store
    answers with a value that is not the sentinel and that the base64
    decoder rejects, the call raises [RendezvousStateError] chained to the
    decoder's error.  In no case does a failure of the store end in a
    normal return. *)
Theorem C7_store_failures_surface {S : Type} {store_ops : Store S}
    (self : C10dRendezvousBackend) (state : bytes) (token : value)
    (w : world S) (op : store_call)
    (f : M S (option (bytes * bytes))) :
  f = get_state self \/ f = set_state self state token ->
  calls (snd (f w)) = calls w ++ [op] ->
  match store_answer op (the_store w) with
  | Raise exc =>
      fst (f w) =
      Raise (if caught_by exc [ValueError; RuntimeError]
             then ExnFrom RendezvousConnectionError exc
             else exc)
  | Ok v =>
      v <> Utf8.encode _NULL_SENTINEL ->
      forall e, codecs_decode_base64 v = Raise e ->
                fst (f w) = Raise (ExnFrom RendezvousStateError e)
  end.
Proof.
  intros Hf Hcalls.
  assert (Hshape : fst (f w) =
                   fst ((base64_state <- _call_store self op ;;
                         lift (_decode_state base64_state)) w)).
  { destruct Hf as [-> | ->].
    - rewrite get_state_calls in Hcalls.
      apply app_inv_head in Hcalls as [= <-]. reflexivity.
    - destruct (set_state_calls self state token w)
        as (new & Hnew & [->|[[-> Hget]|(e & -> & Hcas)]]);
        rewrite Hnew in Hcalls; apply app_inv_head in Hcalls.
      + discriminate Hcalls.
      + injection Hcalls as <-. now rewrite Hget.
      + injection Hcalls as <-. now rewrite Hcas. }
  rewrite Hshape, call_then_decode.
  destruct (store_answer op (the_store w)) as [v|exc].
  - intros Hv e He. now apply _decode_state_corrupt.
  - now destruct (caught_by _ _).
Qed.

Lemma C7_store_failures_surface_witness :
  fst (get_state job42 (fresh_world (FailingStore (Exn RuntimeError)))) =
  Raise (ExnFrom RendezvousConnectionError (Exn RuntimeError))
  /\ fst (set_state job42 epoch1 PyNone
            (fresh_world
               ({[ "torch.rendezvous.job-42" := list_byte_of_string "abc" ]}
                  : gmap string bytes))) =
     Raise (ExnFrom RendezvousStateError
              (ExnFrom binascii_Error (Exn binascii_Error))).
Proof.
  split.
  - exact (C7_store_failures_surface job42 epoch1 PyNone
             (fresh_world (FailingStore (Exn RuntimeError)))
             (call_get "torch.rendezvous.job-42") (get_state job42)
             (or_introl eq_refl) eq_refl).
  - pose proof (C7_store_failures_surface job42 epoch1 PyNone
                  (fresh_world
                     ({[ "torch.rendezvous.job-42" :=
                           list_byte_of_string "abc" ]} : gmap string bytes))
                  (call_compare_set "torch.rendezvous.job-42" _NULL_SENTINEL
                     (encoded_state epoch1))
                  (set_state job42 epoch1 PyNone)
                  (or_intror eq_refl)) as H.
    specialize (H ltac:(vm_compute; reflexivity)).
    vm_compute in H. vm_compute. apply H; [discriminate|reflexivity].
Defined.

(** C7 as stated fails for a store whose operation raises outside
    [ValueError] and [RuntimeError]: a [KeyError] from the store's [get]
    comes out of [get_state] and of [set_state] as the [KeyError] it is,
    not as a [RendezvousConnectionError]. *)
Lemma C7_counterexample :
  store_answer (call_get "torch.rendezvous.job-42")
    (FailingStore (Exn KeyError)) = Raise (Exn KeyError)
  /\ fst (get_state job42 (fresh_world (FailingStore (Exn KeyError)))) =
     Raise (Exn KeyError)
  /\ fst (set_state job42 epoch1 PyNone
            (fresh_world (FailingStore (Exn KeyError)))) =
     Raise (Exn KeyError)
  /\ issubclass KeyError RendezvousConnectionError = false.
Proof. vm_compute. repeat split. Qed.

(** The decoder is lenient: characters outside the alphabet are skipped,
    so a stored value made of such characters is read as the empty
    state. *)
Example lenient_decoding :
  _decode_state (list_byte_of_string "!!!!") =
  Ok (Some ([], list_byte_of_string "!!!!")).
Proof. reflexivity. Qed.

(** ** Store bootstrap *)

Section BootstrapFacts.

Context {S : Type} {env : Environment S}.

Lemma connect_two (host : string) (port read_timeout : Z)
    (cfg_is_host : option bool) (is_host : bool) :
  connect host port read_timeout cfg_is_host [is_host; false] =
  match TCPStore host port is_host read_timeout with
  | Ok store => (Ok store, [is_host])
  | Raise exc =>
      if caught_by exc [ValueError; RuntimeError] then
        if negb is_host
           || match cfg_is_host with Some _ => true | None => false end
        then (Raise (ExnFrom RendezvousConnectionError exc), [is_host])
        else
          match TCPStore host port false read_timeout with
          | Ok store => (Ok store, [is_host; false])
          | Raise exc' =>
              (Raise (if caught_by exc' [ValueError; RuntimeError]
                      then ExnFrom RendezvousConnectionError exc'
                      else exc'), [is_host; false])
          end
      else (Raise exc, [is_host])
  end.
Proof.
  cbn [connect].
  destruct (TCPStore host port is_host read_timeout) as [store|exc];
    [reflexivity|].
  destruct (caught_by exc _); [|reflexivity].
  destruct (negb is_host || _); [reflexivity|].
  destruct (TCPStore host port false read_timeout) as [store|exc'];
    [reflexivity|].
  cbn [negb orb]. now destruct (caught_by exc' _).
Qed.

End BootstrapFacts.

(** C5, as amended.  With a positive read timeout, the bootstrap first
    calls the [TCPStore] constructor in the resolved role.  If that call
    raises a [ValueError] or [RuntimeError] while the role is server and
    was inferred (no [is_host] given), exactly one more call is made, in
    the client role, and its outcome is the outcome of the bootstrap: the
    store, or a [RendezvousConnectionError] if it raises one of these two
    errors again.  If the first call raises one of these two errors with
    an explicit role or in the client role, the bootstrap raises
    [RendezvousConnectionError] after that single call.  An exception of
    another class leaves the bootstrap as it is, with no further call. *)
Theorem C5_bootstrap_fallback {S : Type} {env : Environment S}
    (params : RendezvousParameters) :
  let '(host, port) := parse_rendezvous_endpoint (endpoint params) 29500 in
  let cfg_is_host := get_as_bool params "is_host" in
  let is_host :=
    match cfg_is_host with
    | Some b => b
    | None => _matches_machine_hostname host
    end in
  let read_timeout := get_as_int params "read_timeout" 60 in
  let attempt (is_server : bool) :=
    TCPStore host port is_server read_timeout in
  let store_failure (exc : exn) :=
    caught_by exc [ValueError; RuntimeError] in
  (0 < read_timeout)%Z ->
  (forall store, attempt is_host = Ok store ->
     _create_tcp_store params = (Ok store, [is_host]))
  /\ (forall exc,
        attempt is_host = Raise exc -> store_failure exc = true ->
        is_host = true -> cfg_is_host = None ->
        (forall store, attempt false = Ok store ->
           _create_tcp_store params = (Ok store, [true; false]))
        /\ (forall exc', attempt false = Raise exc' ->
              store_failure exc' = true ->
              _create_tcp_store params =
              (Raise (ExnFrom RendezvousConnectionError exc'), [true; false]))
        /\ (forall exc', attempt false = Raise exc' ->
              store_failure exc' = false ->
              _create_tcp_store params = (Raise exc', [true; false])))
  /\ (forall exc,
        attempt is_host = Raise exc -> store_failure exc = true ->
        is_host = false \/ cfg_is_host <> None ->
        _create_tcp_store params =
        (Raise (ExnFrom RendezvousConnectionError exc), [is_host]))
  /\ (forall exc,
        attempt is_host = Raise exc -> store_failure exc = false ->
        _create_tcp_store params = (Raise exc, [is_host])).
Proof.
  unfold _create_tcp_store.
  destruct (parse_rendezvous_endpoint _ _) as [host port]. cbv zeta.
  intros Hpos. apply Z.leb_gt in Hpos. rewrite Hpos, connect_two.
  set (cfg := get_as_bool params "is_host").
  set (is_host := match cfg with Some b => b | None => _ end).
  split; [|split; [|split]].
  - now intros store ->.
  - intros exc He Hc Hhost Hcfg. rewrite He, Hc, Hhost, Hcfg. cbn [negb orb].
    split; [|split].
    + now intros store ->.
    + now intros exc' -> ->.
    + now intros exc' -> ->.
  - intros exc He Hc Hrole. rewrite He, Hc.
    destruct Hrole as [-> | Hcfg]; [reflexivity|].
    destruct cfg; [|congruence]. now rewrite orb_true_r.
  - intros exc He Hc. now rewrite He, Hc.
Qed.

(** Several peers of one machine infer that they host the store; for all
    but one the server role fails, and they end up as clients. *)
Lemma C5_bootstrap_fallback_witness :
  _create_tcp_store
    (env := fixed_env None true 60 (server_fails (Exn RuntimeError)))
    job42_params = (Ok ∅, [true; false])
  /\ _create_tcp_store
       (env := fixed_env (Some true) true 60 (server_fails (Exn RuntimeError)))
       job42_params =
     (Raise (ExnFrom RendezvousConnectionError (Exn RuntimeError)), [true]).
Proof.
  split.
  - pose proof (C5_bootstrap_fallback
                  (env := fixed_env None true 60
                            (server_fails (Exn RuntimeError)))
                  job42_params) as H.
    cbn -[_create_tcp_store] in H.
    destruct H as (_ & H & _); [lia|].
    destruct (H (Exn RuntimeError) eq_refl eq_refl eq_refl eq_refl)
      as (H1 & _).
    exact (H1 ∅ eq_refl).
  - pose proof (C5_bootstrap_fallback
                  (env := fixed_env (Some true) true 60
                            (server_fails (Exn RuntimeError)))
                  job42_params) as H.
    cbn -[_create_tcp_store] in H.
    destruct H as (_ & _ & H & _); [lia|].
    apply H; [reflexivity|reflexivity|now right].
Defined.

(** C5 as stated fails when the constructor raises outside [ValueError]
    and [RuntimeError].  The role is server and was inferred, the creation
    of the store fails with a [MemoryError]: no attempt is made in the
    client role, and the error of the bootstrap is that [MemoryError], not
    a connection error. *)
Lemma C5_counterexample :
  _create_tcp_store
    (env := fixed_env None true 60 (server_fails (Exn MemoryError)))
    job42_params = (Raise (Exn MemoryError), [true])
  /\ server_fails (Exn MemoryError) false = Ok ∅
  /\ issubclass MemoryError RendezvousConnectionError = false.
Proof. vm_compute. repeat split. Qed.

(** ** Configuration errors *)

Lemma uncaught_not_ValueError (exc : exn) :
  caught_by exc [ValueError; RuntimeError] = false ->
  issubclass (class_of exc) ValueError = false.
Proof.
  unfold caught_by. cbn [existsb]. now intros [H _]%orb_false_iff.
Qed.

Lemma connect_not_ValueError {S : Type} {env : Environment S}
    (host : string) (port read_timeout : Z) (cfg_is_host : option bool)
    (roles : list bool) :
  raises ValueError (fst (connect host port read_timeout cfg_is_host roles)) =
  false.
Proof.
  induction roles as [|is_server roles IH]; cbn [connect]; [reflexivity|].
  destruct (TCPStore host port is_server read_timeout) as [store|exc];
    [reflexivity|].
  destruct (caught_by exc _) eqn:Hc.
  - destruct (negb is_server || _); [reflexivity|].
    now destruct (connect host port read_timeout cfg_is_host roles).
  - cbn [fst raises]. now apply uncaught_not_ValueError.
Qed.

Lemma init_ValueError_iff {S : Type} {store_ops : Store S}
    (run_id : string) (w : world S) :
  raises ValueError (fst (__init__ run_id w)) = true <-> run_id = "".
Proof.
  unfold __init__. destruct (String.eqb_spec run_id "") as [->|Hne].
  - now split.
  - split; [|congruence]. unfold bind, ret.
    set (self := {| _key := _ |}).
    pose proof (_call_store_answer self
                  (call_compare_set (_key self) "" _NULL_SENTINEL) w) as H.
    destruct (_call_store _ _ _) as [[v|e] w']; [discriminate|].
    cbn [fst] in *. destruct (store_answer _ _) as [v'|e']; [discriminate|].
    destruct (caught_by e' _) eqn:Hc; injection H as ->; [discriminate|].
    cbn [raises]. now rewrite uncaught_not_ValueError.
Qed.

(** C8.  The module raises [ValueError], its configuration error, in
    exactly three cases, each at its own stage and each before any store
    is touched at that stage: [create_backend] for a store type that is
    not ["tcp"] (after [strip] and [lower]), with no [TCPStore] call;
    [_create_tcp_store] for a read timeout that is not positive, with no
    [TCPStore] call; the constructor of the backend for an empty run id,
    with no store call.  Nothing is tried again after any of them. *)
Theorem C8_configuration_errors {S : Type} {store_ops : Store S}
    {env : Environment S} (params : RendezvousParameters)
    (rid : string) (w : world S) :
  let store_type := lower (strip (get params "store_type" "tcp")) in
  let read_timeout := get_as_int params "read_timeout" 60 in
  (raises ValueError (fst (__init__ rid w)) = true <-> rid = "")
  /\ (rid = "" -> __init__ rid w = (Raise (Exn ValueError), w))
  /\ (raises ValueError (fst (_create_tcp_store params)) = true
      <-> (read_timeout <= 0)%Z)
  /\ ((read_timeout <= 0)%Z ->
      _create_tcp_store params = (Raise (Exn ValueError), []))
  /\ (store_type <> "tcp" ->
      create_backend params = (Raise (Exn ValueError), []))
  /\ (raises ValueError (fst (create_backend params)) = true
      <-> store_type <> "tcp"
          \/ (read_timeout <= 0)%Z
          \/ (run_id params = ""
              /\ raised (fst (_create_tcp_store params)) = None)).
Proof.
  cbv zeta.
  assert (Htcp : raises ValueError (fst (_create_tcp_store params)) = true
                 <-> (get_as_int params "read_timeout" 60 <= 0)%Z).
  { unfold _create_tcp_store.
    destruct (parse_rendezvous_endpoint _ _) as [host port].
    destruct (Z.leb_spec (get_as_int params "read_timeout" 60) 0) as [Hle|Hgt].
    - now split.
    - split; [|lia]. now rewrite connect_not_ValueError. }
  assert (Htcp' : (get_as_int params "read_timeout" 60 <= 0)%Z ->
                  _create_tcp_store params = (Raise (Exn ValueError), [])).
  { intros Hle. unfold _create_tcp_store.
    destruct (parse_rendezvous_endpoint _ _) as [host port].
    apply Z.leb_le in Hle. now rewrite Hle. }
  split; [apply init_ValueError_iff|].
  split; [now intros ->|].
  split; [exact Htcp|]. split; [exact Htcp'|].
  unfold create_backend.
  destruct (String.eqb_spec (lower (strip (get params "store_type" "tcp")))
              "tcp") as [Heq|Hne]; cbn [negb].
  - split; [congruence|]. rewrite Heq.
    destruct (_create_tcp_store params) as [[store|e] tried] eqn:Hc.
    + pose proof (init_ValueError_iff (run_id params) (fresh_world store))
        as Hinit.
      destruct (__init__ (run_id params) (fresh_world store))
        as [[self|e] w']; cbn [fst raises raised] in *.
      * split; [discriminate|].
        intros [Hf|[Hle|[Hrid _]]]; [congruence| |].
        -- apply Htcp' in Hle. discriminate Hle.
        -- now apply Hinit in Hrid.
      * split.
        -- intros Hv. right. right. split; [now apply Hinit|reflexivity].
        -- intros [Hf|[Hle|[Hrid _]]]; [congruence| |now apply Hinit].
           apply Htcp' in Hle. discriminate Hle.
    + cbn [fst raises raised] in *. rewrite Htcp.
      split; [tauto|]. intros [Hf|[Hle|[_ Hnone]]];
        [congruence|exact Hle|discriminate].
  - split; [reflexivity|]. cbn [fst raises class_of].
    split; [tauto|reflexivity].
Qed.

Lemma C8_configuration_errors_witness :
  __init__ "" seeded = (Raise (Exn ValueError), seeded)
  /\ _create_tcp_store
       (env := fixed_env None true 0 (server_fails (Exn RuntimeError)))
       job42_params = (Raise (Exn ValueError), [])
  /\ create_backend
       (env := fixed_env None true 60 (server_fails (Exn RuntimeError)))
       {| endpoint := "node0"; run_id := "job-42";
          config := {[ "store_type" := "file" ]} |} =
     (Raise (Exn ValueError), []).
Proof.
  split; [|split].
  - apply (proj1 (proj2 (C8_configuration_errors
                           (env := fixed_env None true 60
                                     (server_fails (Exn RuntimeError)))
                           job42_params "" seeded))).
    reflexivity.
  - apply (proj1 (proj2 (proj2 (proj2 (C8_configuration_errors
                           (env := fixed_env None true 0
                                     (server_fails (Exn RuntimeError)))
                           job42_params "" seeded))))).
    cbn. lia.
  - apply (proj1 (proj2 (proj2 (proj2 (proj2 (C8_configuration_errors
                           (env := fixed_env None true 60
                                     (server_fails (Exn RuntimeError)))
                           {| endpoint := "node0"; run_id := "job-42";
                              config := {[ "store_type" := "file" ]} |}
                           "" seeded)))))).
    vm_compute. discriminate.
Defined.

(** * Further properties of the backend *)

(** ** The paths of [set_state], over any store *)

Lemma set_state_cases {S : Type} {store_ops : Store S}
    (self : C10dRendezvousBackend) (state : bytes) (token : value)
    (w : world S) :
  (exists b, token = PyBytes b /\ b <> [] /\ Utf8.valid b = false
             /\ set_state self state token w =
                (Raise (Exn UnicodeDecodeError), w))
  \/ (truthy token = true /\ is_bytes token = false
      /\ set_state self state token w = get_state self w)
  \/ (exists expected,
        ((truthy token = false /\ expected = _NULL_SENTINEL)
         \/ (exists b, token = PyBytes b /\ b <> []
                       /\ Utf8.decode b = Ok expected))
        /\ set_state self state token w =
           compare_set_and_decode self expected (encoded_state state) w).
Proof.
  destruct (truthy token) eqn:Ht.
  - destruct (is_bytes token) eqn:Hb.
    + destruct token as [| | | |b|]; try discriminate Hb.
      assert (Hne : b <> []) by (destruct b; [discriminate Ht|discriminate]).
      destruct (Utf8.valid b) eqn:Hv.
      * right. right. exists (string_of_list_byte b).
        assert (Hdec : Utf8.decode b = Ok (string_of_list_byte b))
          by (unfold Utf8.decode; now rewrite Hv).
        split; [right; now exists b|now apply set_state_bytes].
      * left. exists b. repeat split; trivial. now apply set_state_undecodable.
    + right. left. repeat split; trivial. now apply set_state_shortcut.
  - right. right. exists _NULL_SENTINEL.
    split; [now left|now apply set_state_falsy].
Qed.

(** ** [get_state] and [set_state] over the key-value store *)

Lemma kv_get_state_any (self : C10dRendezvousBackend)
    (m : gmap string bytes) (log : list store_call) :
  get_state self (World m log) =
  (match m !! _key self with
   | Some v => _decode_state v
   | None => Raise (ExnFrom RendezvousConnectionError (Exn RuntimeError))
   end, World m (log ++ [call_get (_key self)])).
Proof.
  unfold get_state, bind, lift, _call_store.
  cbn [the_store calls store_get kv_store].
  now destruct (m !! _key self).
Qed.

Lemma encode_nonempty (x : bytes) : x <> [] -> codecs_encode_base64 x <> [].
Proof.
  intros Hx. destruct (encode_ends_with_newline x Hx) as [p ->].
  now destruct p.
Qed.

Lemma decoded_token_nonempty (b : bytes) (t : string) :
  b <> [] -> Utf8.decode b = Ok t -> Utf8.encode t <> [].
Proof. intros Hb Ht. now rewrite (encode_decoded_token b t Ht). Qed.

(** X1.  On a backend freshly constructed over a store with nothing at its
    key, [set_state(x)] without a token succeeds and returns [x] with the
    encoded form of [x] as token; [get_state()] then returns the same
    pair. *)
Theorem X1_fresh_set_state_then_get_state (run_id : string) (x : bytes)
    (m : gmap string bytes) :
  run_id <> "" ->
  m !! _key (backend_of run_id) = None ->
  let self := backend_of run_id in
  let w1 := snd (__init__ run_id (fresh_world m)) in
  let w2 := snd (set_state self x PyNone w1) in
  fst (__init__ run_id (fresh_world m)) = Ok self
  /\ fst (set_state self x PyNone w1) = Ok (Some (x, codecs_encode_base64 x))
  /\ fst (get_state self w2) = Ok (Some (x, codecs_encode_base64 x)).
Proof.
  intros Hne Hnone. cbv zeta. unfold backend_of in *. cbn [_key] in Hnone.
  split.
  - unfold fresh_world. now rewrite kv_init.
  - now apply fresh_backend_set_then_get.
Qed.

Lemma X1_fresh_set_state_then_get_state_witness :
  fst (set_state job42 epoch1 PyNone
         (snd (__init__ "job-42" (fresh_world (∅ : gmap string bytes))))) =
  Ok (Some (epoch1, codecs_encode_base64 epoch1)).
Proof.
  refine (proj1 (proj2 (X1_fresh_set_state_then_get_state "job-42" epoch1 ∅
                          _ _))).
  - discriminate.
  - reflexivity.
Defined.

(** X2.  Once the key holds the empty value, which is the encoded form of
    the empty state, no call of [set_state] changes the store, whatever
    the state and the token: a falsy token (the token [b""] that
    [get_state] returned included) makes the compare-and-set expect the
    sentinel, and a non-empty token expects a non-empty value.  The call
    returns the empty state, or raises [UnicodeDecodeError] for a token
    that does not decode. *)
Theorem X2_empty_state_cannot_be_replaced (self : C10dRendezvousBackend)
    (state : bytes) (token : value) (m : gmap string bytes)
    (log : list store_call) :
  m !! _key self = Some [] ->
  the_store (snd (set_state self state token (World m log))) = m
  /\ (fst (set_state self state token (World m log)) = Ok (Some ([], []))
      \/ fst (set_state self state token (World m log)) =
         Raise (Exn UnicodeDecodeError)).
Proof.
  intros Hm.
  destruct (set_state_cases self state token (World m log))
    as [(b & _ & _ & _ & ->)|[(_ & _ & ->)|(expected & Hexp & ->)]].
  - split; [reflexivity|now right].
  - rewrite kv_get_state_any, Hm. split; [reflexivity|now left].
  - rewrite kv_compare_set_and_decode. cbv zeta.
    assert (Hcur : current_value m (_key self) = [])
      by (unfold current_value; now rewrite Hm).
    assert (Hne : [] <> Utf8.encode expected).
    { destruct Hexp as [[_ ->]|(b & _ & Hb & Hdec)]; [discriminate|].
      intros Heq. now apply (decoded_token_nonempty b expected Hb Hdec). }
    rewrite Hcur, bytes_eqb_neq by exact Hne. cbn [snd fst the_store].
    rewrite Hcur. split; [reflexivity|now left].
Qed.

Lemma X2_empty_state_cannot_be_replaced_witness :
  let m : gmap string bytes := {[ "torch.rendezvous.job-42" := [] ]} in
  fst (get_state job42 (fresh_world m)) = Ok (Some ([], []))
  /\ the_store (snd (set_state job42 epoch1 (PyBytes []) (fresh_world m))) = m.
Proof.
  cbv zeta. split; [reflexivity|].
  refine (proj1 (X2_empty_state_cannot_be_replaced job42 epoch1 (PyBytes [])
                   {[ "torch.rendezvous.job-42" := [] ]} [] _)).
  reflexivity.
Defined.

(** X3.  While the key holds the encoded form of a non-empty state [x],
    [get_state()] returns [x] with a token, and [set_state(y, token)] with
    that token writes [y]: the store then holds the encoded form of [y],
    and the call returns [y] with its new token. *)
Theorem X3_returned_token_updates_state (self : C10dRendezvousBackend)
    (x y : bytes) (m : gmap string bytes) (log log' : list store_call) :
  x <> [] ->
  m !! _key self = Some (codecs_encode_base64 x) ->
  exists token,
    fst (get_state self (World m log)) = Ok (Some (x, token))
    /\ set_state self y (PyBytes token) (World m log') =
       (Ok (Some (y, codecs_encode_base64 y)),
        World (<[_key self := codecs_encode_base64 y]> m)
          (log' ++ [call_compare_set (_key self) (encoded_state x)
                      (encoded_state y)])).
Proof.
  intros Hx Hm. exists (codecs_encode_base64 x). split.
  - rewrite kv_get_state_any, Hm. cbn [fst]. apply _decode_state_encode.
  - rewrite (set_state_bytes _ _ _ (encoded_state x))
      by (auto using encode_nonempty, decode_encoded_state).
    rewrite kv_compare_set_and_decode. cbv zeta.
    assert (Hcur : current_value m (_key self) = codecs_encode_base64 x)
      by (unfold current_value; now rewrite Hm).
    rewrite Hcur, !encode_encoded_state, bytes_eqb_refl, current_value_insert.
    now rewrite _decode_state_encode.
Qed.

Lemma X3_returned_token_updates_state_witness :
  exists token,
    fst (get_state job42
           (World ({[ "torch.rendezvous.job-42" :=
                        codecs_encode_base64 epoch1 ]} : gmap string bytes)
              [])) = Ok (Some (epoch1, token))
    /\ set_state job42 epoch2 (PyBytes token)
         (World ({[ "torch.rendezvous.job-42" :=
                      codecs_encode_base64 epoch1 ]} : gmap string bytes) []) =
       (Ok (Some (epoch2, codecs_encode_base64 epoch2)),
        World (<[ "torch.rendezvous.job-42" := codecs_encode_base64 epoch2 ]>
                 ({[ "torch.rendezvous.job-42" :=
                       codecs_encode_base64 epoch1 ]} : gmap string bytes))
          [call_compare_set "torch.rendezvous.job-42" (encoded_state epoch1)
             (encoded_state epoch2)]).
Proof.
  refine (X3_returned_token_updates_state job42 epoch1 epoch2
            {[ "torch.rendezvous.job-42" := codecs_encode_base64 epoch1 ]}
            [] [] _ _).
  - discriminate.
  - reflexivity.
Defined.

(** ** What the calls do to the key-value store *)

Section StoreEffects.

Implicit Types (self : C10dRendezvousBackend) (m : gmap string bytes).

Lemma kv_get_state_store self m log :
  the_store (snd (get_state self (World m log))) = m.
Proof. now rewrite kv_get_state_any. Qed.

Lemma kv_set_state_store self state token m log :
  the_store (snd (set_state self state token (World m log))) = m
  \/ the_store (snd (set_state self state token (World m log))) =
     <[_key self := codecs_encode_base64 state]> m.
Proof.
  destruct (set_state_cases self state token (World m log))
    as [(b & _ & _ & _ & ->)|[(_ & _ & ->)|(expected & _ & ->)]].
  - now left.
  - left. apply kv_get_state_store.
  - rewrite kv_compare_set_and_decode. cbv zeta. cbn [snd the_store].
    rewrite encode_encoded_state. destruct (bytes_eqb _ _); auto.
Qed.

Lemma kv_init_store run_id m log :
  the_store (snd (__init__ run_id (World m log))) =
  if String.eqb run_id "" then m
  else if bytes_eqb (current_value m (_key (backend_of run_id))) []
       then <[_key (backend_of run_id) := Utf8.encode _NULL_SENTINEL]> m
       else m.
Proof.
  destruct (String.eqb_spec run_id "") as [->|Hne]; [reflexivity|].
  now rewrite kv_init.
Qed.

Lemma append_inj_r (p a b : string) : (p ++ a = p ++ b)%string -> a = b.
Proof.
  induction p as [|c p IH]; cbn [String.append]; [trivial|].
  intros [= H]. now apply IH.
Qed.

Lemma backend_key_inj (r1 r2 : string) :
  _key (backend_of r1) = _key (backend_of r2) -> r1 = r2.
Proof. apply append_inj_r. Qed.

Lemma written_by_backend_decodes (v : bytes) :
  written_by_backend v -> exists r, _decode_state v = Ok r.
Proof.
  intros [->|[x ->]]; [now exists None|].
  rewrite _decode_state_encode. eauto.
Qed.

Lemma run_call_keeps_backend_values run_id (w : world (gmap string bytes))
    (c : backend_call) :
  run_id <> "" ->
  (exists v, the_store w !! _key (backend_of run_id) = Some v
             /\ written_by_backend v) ->
  exists v, the_store (run_call run_id w c) !! _key (backend_of run_id) = Some v
            /\ written_by_backend v.
Proof.
  intros Hne (v & Hv & Hw). destruct w as [m log]. cbn [the_store] in Hv.
  destruct c as [| |state token]; cbn [run_call].
  - rewrite kv_init_store. apply String.eqb_neq in Hne. rewrite Hne.
    destruct (bytes_eqb _ _).
    + rewrite lookup_insert_eq. eexists. split; [reflexivity|now left].
    + eauto.
  - rewrite kv_get_state_store. eauto.
  - destruct (kv_set_state_store (backend_of run_id) state token m log)
      as [-> | ->]; [eauto|].
    rewrite lookup_insert_eq. eexists. split; [reflexivity|right; eauto].
Qed.

Lemma run_calls_keep_backend_values run_id (cs : list backend_call) :
  run_id <> "" ->
  forall w : world (gmap string bytes),
    (exists v, the_store w !! _key (backend_of run_id) = Some v
               /\ written_by_backend v) ->
    exists v, the_store (run_calls run_id cs w) !! _key (backend_of run_id)
              = Some v
              /\ written_by_backend v.
Proof.
  intros Hne. induction cs as [|c cs IH]; intros w Hw; [exact Hw|].
  cbn [run_calls fold_left]. apply IH.
  now apply run_call_keeps_backend_values.
Qed.

End StoreEffects.

(** X4.  Take a store whose key for the run id is unset or holds a value
    the backend wrote.  After a construction followed by any sequence of
    constructions, [get_state] and [set_state] calls (any states, any
    tokens, by any peers of the run id), the key holds the sentinel or the
    encoded form of a state; so [get_state()] returns and never reports a
    corrupt state or a failed connection. *)
Theorem X4_key_always_holds_backend_value (run_id : string)
    (cs : list backend_call) (m : gmap string bytes)
    (log : list store_call) :
  run_id <> "" ->
  (forall v, m !! _key (backend_of run_id) = Some v -> written_by_backend v) ->
  let w := run_calls run_id (construct :: cs) (World m log) in
  (exists v, the_store w !! _key (backend_of run_id) = Some v
             /\ written_by_backend v)
  /\ exists r, fst (get_state (backend_of run_id) w) = Ok r.
Proof.
  intros Hne Hm. cbv zeta.
  assert (Hinv : exists v,
             the_store (run_calls run_id (construct :: cs) (World m log))
               !! _key (backend_of run_id) = Some v
             /\ written_by_backend v).
  { cbn [run_calls fold_left].
    apply run_calls_keep_backend_values; [exact Hne|].
    cbn [run_call]. rewrite kv_init_store.
    apply String.eqb_neq in Hne. rewrite Hne.
    destruct (bytes_eqb _ _) eqn:Hcur.
    - rewrite lookup_insert_eq. eexists. split; [reflexivity|now left].
    - unfold current_value in Hcur.
      destruct (m !! _key (backend_of run_id)) as [v|] eqn:Hv;
        [eauto|discriminate Hcur]. }
  split; [exact Hinv|].
  destruct Hinv as (v & Hv & Hw).
  destruct (run_calls _ _ _) as [m' log']. cbn [the_store] in Hv.
  rewrite kv_get_state_any, Hv. cbn [fst].
  now apply written_by_backend_decodes.
Qed.

Lemma X4_key_always_holds_backend_value_witness :
  let w :=
    run_calls "job-42"
      [construct; call_set_state epoch1 PyNone; call_get_state; construct;
       call_set_state epoch2 (PyInt 3)]
      (fresh_world (∅ : gmap string bytes)) in
  (exists v, the_store w !! "torch.rendezvous.job-42" = Some v
             /\ written_by_backend v)
  /\ exists r, fst (get_state job42 w) = Ok r.
Proof.
  refine (X4_key_always_holds_backend_value "job-42"
            [call_set_state epoch1 PyNone; call_get_state; construct;
             call_set_state epoch2 (PyInt 3)] ∅ [] _ _).
  - discriminate.
  - intros v Hv. discriminate Hv.
Defined.

(** X5.  Construction is idempotent on the store: constructing a backend
    again for the same run id, right after a construction, leaves the
    store as that construction left it.  After a construction with a
    non-empty run id the key holds a non-empty value, so the read of
    [get_state] does not wait for the key. *)
Theorem X5_construction_idempotent (run_id : string)
    (m : gmap string bytes) (log log' : list store_call) :
  let m1 := the_store (snd (__init__ run_id (World m log))) in
  the_store (snd (__init__ run_id (World m1 log'))) = m1
  /\ (run_id <> "" ->
      exists v, m1 !! _key (backend_of run_id) = Some v /\ v <> []).
Proof.
  cbv zeta. rewrite !kv_init_store.
  destruct (String.eqb_spec run_id "") as [->|Hne]; [now split|].
  set (k := _key (backend_of run_id)).
  destruct (bytes_eqb (current_value m k) []) eqn:Hcur.
  - rewrite current_value_insert. split; [reflexivity|].
    intros _. rewrite lookup_insert_eq. eexists. split; [reflexivity|].
    discriminate.
  - rewrite Hcur. split; [reflexivity|]. intros _.
    unfold current_value in Hcur. destruct (m !! k) as [v|]; [|discriminate].
    exists v. split; [reflexivity|]. intros ->. discriminate Hcur.
Qed.

Lemma X5_construction_idempotent_witness :
  exists v,
    the_store (snd (__init__ "job-42" (World (∅ : gmap string bytes) [])))
      !! "torch.rendezvous.job-42" = Some v /\ v <> [].
Proof.
  refine (proj2 (X5_construction_idempotent "job-42" ∅ [] []) _).
  discriminate.
Defined.

(** X6.  Run ids do not interfere: a construction, a [get_state] or a
    [set_state] for one run id leaves the value under the key of any other
    run id as it is, and with it what [get_state()] returns for that other
    run id. *)
Theorem X6_run_ids_are_isolated (r1 r2 : string)
    (w : world (gmap string bytes)) (c : backend_call) :
  r1 <> r2 ->
  the_store (run_call r1 w c) !! _key (backend_of r2) =
  the_store w !! _key (backend_of r2)
  /\ fst (get_state (backend_of r2) (run_call r1 w c)) =
     fst (get_state (backend_of r2) w).
Proof.
  intros Hne.
  assert (Hk : _key (backend_of r1) <> _key (backend_of r2))
    by (intros H; now apply backend_key_inj in H).
  assert (Hstore : the_store (run_call r1 w c) !! _key (backend_of r2) =
                   the_store w !! _key (backend_of r2)).
  { destruct w as [m log]. destruct c as [| |state token]; cbn [run_call].
    - rewrite kv_init_store. cbn [the_store].
      destruct (r1 =? "")%string; [reflexivity|].
      destruct (bytes_eqb _ _); [|reflexivity].
      now rewrite lookup_insert_ne.
    - now rewrite kv_get_state_store.
    - destruct (kv_set_state_store (backend_of r1) state token m log)
        as [-> | ->]; [reflexivity|].
      now rewrite lookup_insert_ne. }
  split; [exact Hstore|].
  destruct (run_call r1 w c) as [m' log']. destruct w as [m log].
  cbn [the_store] in Hstore. now rewrite !kv_get_state_any, Hstore.
Qed.

Lemma X6_run_ids_are_isolated_witness :
  fst (get_state (backend_of "job-42")
         (run_call "job-43" seeded (call_set_state epoch1 PyNone))) =
  fst (get_state (backend_of "job-42") seeded).
Proof.
  refine (proj2 (X6_run_ids_are_isolated "job-43" "job-42" seeded
                   (call_set_state epoch1 PyNone) _)).
  discriminate.
Defined.

(** X7.  While the key has a value and the token, if it is [bytes],
    decodes, what [set_state] returns is what [get_state()] returns right
    after it: the pair handed back is the state the store holds once the
    call is over, whether the caller won, lost, or took the shortcut. *)
Theorem X7_set_state_returns_current_state (self : C10dRendezvousBackend)
    (state : bytes) (token : value) (m : gmap string bytes)
    (log : list store_call) (v : bytes) :
  m !! _key self = Some v ->
  (forall b, token = PyBytes b -> Utf8.valid b = true) ->
  fst (get_state self (snd (set_state self state token (World m log)))) =
  fst (set_state self state token (World m log)).
Proof.
  intros Hv Htok.
  destruct (set_state_cases self state token (World m log))
    as [(b & Hb & _ & Hbad & _)|[(_ & _ & ->)|(expected & _ & ->)]].
  - rewrite (Htok b Hb) in Hbad. discriminate Hbad.
  - rewrite (kv_get_state_any self m log). cbn [snd].
    now rewrite kv_get_state_any.
  - rewrite kv_compare_set_and_decode. cbv zeta. cbn [fst snd].
    rewrite kv_get_state_any. cbn [fst].
    destruct (bytes_eqb _ _).
    + now rewrite lookup_insert_eq, current_value_insert.
    + unfold current_value. now rewrite Hv.
Qed.

Lemma X7_set_state_returns_current_state_witness :
  let m1 : gmap string bytes :=
    {[ "torch.rendezvous.job-42" := codecs_encode_base64 epoch1 ]} in
  fst (get_state job42 (snd (set_state job42 epoch2 PyNone (World m1 [])))) =
  fst (set_state job42 epoch2 PyNone (World m1 [])).
Proof.
  cbv zeta.
  refine (X7_set_state_returns_current_state job42 epoch2 PyNone
            {[ "torch.rendezvous.job-42" := codecs_encode_base64 epoch1 ]} []
            (codecs_encode_base64 epoch1) _ _).
  - reflexivity.
  - intros b Hb. discriminate Hb.
Defined.

(** ** The exceptions that leave the backend *)






(** ** What [_decode_state] accepts *)

(** X9.  [_decode_state] has three outcomes.  It returns [None] exactly
    for the bytes of the sentinel.  When it returns a state, the token is
    the very value it was given, whose base64 decoding is the state.  When
    it raises, the exception is a [RendezvousStateError] chained to the
    [binascii.Error] of the codec, never anything else. *)
Theorem X9_decode_state_outcomes (v : bytes) :
  (_decode_state v = Ok None <-> v = Utf8.encode _NULL_SENTINEL)
  /\ (forall state token,
        _decode_state v = Ok (Some (state, token)) ->
        token = v /\ v <> Utf8.encode _NULL_SENTINEL
        /\ codecs_decode_base64 v = Ok state)
  /\ (forall e,
        _decode_state v = Raise e ->
        e = ExnFrom RendezvousStateError
              (ExnFrom binascii_Error (Exn binascii_Error))
        /\ v <> Utf8.encode _NULL_SENTINEL).
Proof.
  unfold _decode_state.
  destruct (bytes_eqb v (Utf8.encode _NULL_SENTINEL)) eqn:Hs.
  - apply bytes_eqb_eq in Hs. split; [now split|]. split; discriminate.
  - assert (Hne : v <> Utf8.encode _NULL_SENTINEL).
    { intros ->. now rewrite bytes_eqb_refl in Hs. }
    destruct (codecs_decode_base64 v) as [state|exc] eqn:Hdec.
    + split; [split; [discriminate|contradiction]|].
      split; [|discriminate]. now intros state' token [= <- <-].
    + apply codecs_decode_raise in Hdec as ->. cbn [caught_by existsb].
      split; [split; [discriminate|contradiction]|].
      split; [discriminate|]. now intros e [= <-].
Qed.

Lemma X9_decode_state_outcomes_witness :
  _decode_state (Utf8.encode _NULL_SENTINEL) = Ok None
  /\ codecs_decode_base64 (list_byte_of_string "Zg==") = Ok [x66]
  /\ list_byte_of_string "Zg=" <> Utf8.encode _NULL_SENTINEL.
Proof.
  split; [|split].
  - now apply (proj1 (X9_decode_state_outcomes (Utf8.encode _NULL_SENTINEL))).
  - refine (proj2 (proj2 (proj1 (proj2 (X9_decode_state_outcomes
                                          (list_byte_of_string "Zg==")))
                            [x66] (list_byte_of_string "Zg==") _))).
    reflexivity.
  - refine (proj2 (proj2 (proj2 (X9_decode_state_outcomes
                                    (list_byte_of_string "Zg=")))
                     (ExnFrom RendezvousStateError
                        (ExnFrom binascii_Error (Exn binascii_Error))) _)).
    reflexivity.
Defined.

(** X10.  The encoding of states is injective: two states with the same
    encoded form are the same state.  A token that the backend returns for
    a value it wrote therefore identifies the state. *)
Theorem X10_encoding_injective (x y : bytes) :
  encoded_state x = encoded_state y -> x = y.
Proof.
  intros H. apply (f_equal Utf8.encode) in H.
  rewrite !encode_encoded_state in H.
  apply (f_equal codecs_decode_base64) in H.
  rewrite !decode_encode_base64 in H. now injection H.
Qed.

Lemma X10_encoding_injective_witness : epoch1 = epoch1.
Proof. exact (X10_encoding_injective epoch1 epoch1 eq_refl). Defined.

(** ** Characters the decoder skips *)

Lemma a2b_loop_without_skipped (s : bytes) :
  forall quad_pos leftchar pads out,
    Base64.a2b_loop (without_skipped s) quad_pos leftchar pads out =
    Base64.a2b_loop s quad_pos leftchar pads out.
Proof.
  induction s as [|c s IH]; intros quad_pos leftchar pads out; [reflexivity|].
  unfold without_skipped. cbn [List.filter]. fold (without_skipped s).
  destruct (skipped c) eqn:Hsk; cbn [negb].
  - unfold skipped in Hsk. apply andb_true_iff in Hsk as [Hpad Htab].
    apply negb_true_iff in Hpad.
    destruct (Base64.table_a2b_base64 c) eqn:Hc; [discriminate Htab|].
    rewrite IH. cbn [Base64.a2b_loop]. now rewrite Hpad, Hc.
  - cbn [Base64.a2b_loop].
    repeat match goal with
           | |- context [if ?b then _ else _] => destruct b
           | |- context [match ?o with Some _ => _ | None => _ end] =>
               destruct o
           end; try reflexivity; apply IH.
Qed.

(** X11.  The decoder skips the characters that are neither in the base64
    alphabet nor the padding character, so [_decode_state] does not report
    them: a stored value other than the sentinel that is the encoded form
    of a state [x] with such characters added or removed decodes to [x],
    with the stored value, as it is, for token. *)
Theorem X11_foreign_characters_not_reported (x v : bytes) :
  v <> Utf8.encode _NULL_SENTINEL ->
  without_skipped v = without_skipped (codecs_encode_base64 x) ->
  _decode_state v = Ok (Some (x, v)).
Proof.
  intros Hs Hv.
  assert (Hdec : codecs_decode_base64 v = Ok x).
  { rewrite <- (decode_encode_base64 x).
    unfold codecs_decode_base64, Base64.decodebytes, Base64.a2b_base64.
    rewrite <- (a2b_loop_without_skipped v), Hv.
    now rewrite a2b_loop_without_skipped. }
  unfold _decode_state. now rewrite Hdec, bytes_eqb_neq.
Qed.

Lemma X11_foreign_characters_not_reported_witness :
  _decode_state epoch1_with_foreign_characters =
  Ok (Some (epoch1, epoch1_with_foreign_characters)).
Proof.
  apply (X11_foreign_characters_not_reported epoch1
           epoch1_with_foreign_characters).
  - vm_compute. discriminate.
  - vm_compute. reflexivity.
Defined.

(** ** The calls of the bootstrap *)

(** X12.  The bootstrap calls the [TCPStore] constructor at most twice.
    It calls it not at all exactly when the read timeout is not positive.
    Otherwise the first call is in the resolved role, and a second call is
    made only after a first call in the server role that was inferred, and
    only in the client role: the server role is tried at most once, and
    never with [is_host] explicitly false. *)
Theorem X12_bootstrap_attempts {S : Type} {env : Environment S}
    (params : RendezvousParameters) :
  let '(host, port) := parse_rendezvous_endpoint (endpoint params) 29500 in
  let cfg_is_host := get_as_bool params "is_host" in
  let is_host :=
    match cfg_is_host with
    | Some b => b
    | None => _matches_machine_hostname host
    end in
  let read_timeout := get_as_int params "read_timeout" 60 in
  let tried := snd (_create_tcp_store params) in
  (tried = [] <-> (read_timeout <= 0)%Z)
  /\ (tried = [] \/ tried = [is_host]
      \/ (tried = [true; false] /\ is_host = true /\ cfg_is_host = None)).
Proof.
  unfold _create_tcp_store.
  destruct (parse_rendezvous_endpoint _ _) as [host port]. cbv zeta.
  set (cfg := get_as_bool params "is_host").
  set (is_host := match cfg with Some b => b | None => _ end).
  destruct (Z.leb_spec (get_as_int params "read_timeout" 60) 0) as [Hle|Hgt].
  - cbn [snd]. split; [now split|now left].
  - rewrite connect_two.
    assert (Hcases :
      forall tried : list bool,
        tried = [is_host]
        \/ (tried = [true; false] /\ is_host = true /\ cfg = None) ->
        (tried = [] <-> (get_as_int params "read_timeout" 60 <= 0)%Z)
        /\ (tried = [] \/ tried = [is_host]
            \/ (tried = [true; false] /\ is_host = true /\ cfg = None))).
    { intros tried Ht. split; [|now right].
      split; [|lia]. intros ->. now destruct Ht as [Ht|[Ht _]]. }
    apply Hcases.
    destruct (TCPStore host port is_host _) as [store|exc]; [now left|].
    destruct (caught_by exc _); [|now left].
    destruct is_host eqn:Hh; cbn [negb orb]; [|now left].
    destruct cfg; [now left|].
    right. now destruct (TCPStore host port false _).
Qed.

(** X13.  What the bootstrap ends with comes from a call of the [TCPStore]
    constructor it made.  A store it returns is a store a call returned.
    An exception it raises is the [ValueError] of a read timeout that is
    not positive, or the exception of a call, as it is or chained under a
    [RendezvousConnectionError].  The loop never ends without a store or
    an exception. *)
Theorem X13_bootstrap_outcome {S : Type} {env : Environment S}
    (params : RendezvousParameters) :
  let '(host, port) := parse_rendezvous_endpoint (endpoint params) 29500 in
  let read_timeout := get_as_int params "read_timeout" 60 in
  let tried := snd (_create_tcp_store params) in
  match fst (_create_tcp_store params) with
  | Ok store =>
      exists is_server,
        In is_server tried
        /\ TCPStore host port is_server read_timeout = Ok store
  | Raise e =>
      ((read_timeout <= 0)%Z /\ e = Exn ValueError)
      \/ exists is_server exc,
           In is_server tried
           /\ TCPStore host port is_server read_timeout = Raise exc
           /\ (e = exc \/ e = ExnFrom RendezvousConnectionError exc)
  end.
Proof.
  unfold _create_tcp_store.
  destruct (parse_rendezvous_endpoint _ _) as [host port]. cbv zeta.
  set (cfg := get_as_bool params "is_host").
  set (is_host := match cfg with Some b => b | None => _ end).
  destruct (Z.leb_spec (get_as_int params "read_timeout" 60) 0) as [Hle|Hgt].
  - cbn [fst]. now left.
  - rewrite connect_two.
    destruct (TCPStore host port is_host _) as [store|exc] eqn:H1.
    + cbn [fst snd]. exists is_host. split; [now left|exact H1].
    + destruct (caught_by exc _).
      * destruct (negb is_host || _).
        -- cbn [fst snd]. right. exists is_host, exc.
           split; [now left|]. split; [exact H1|now right].
        -- destruct (TCPStore host port false _) as [store|exc'] eqn:H2;
             cbn [fst snd].
           ++ exists false. split; [right; now left|exact H2].
           ++ right. exists false, exc'. split; [right; now left|].
              split; [exact H2|]. destruct (caught_by exc' _); auto.
      * cbn [fst snd]. right. exists is_host, exc.
        split; [now left|]. split; [exact H1|now left].
Qed.

(** X14.  A backend that [create_backend] returns was built from a
    configuration with store type ["tcp"], a positive read timeout and a
    non-empty run id; its key is ["torch.rendezvous." + run_id]; the store
    it holds is the one the bootstrap returned, on which exactly one call
    was made, the seeding compare-and-set. *)
Theorem X14_created_backend {S : Type} {store_ops : Store S}
    {env : Environment S} (params : RendezvousParameters)
    (self : C10dRendezvousBackend) (w : world S) (tried : list bool) :
  create_backend params = (Ok (self, w), tried) ->
  lower (strip (get params "store_type" "tcp")) = "tcp"
  /\ (0 < get_as_int params "read_timeout" 60)%Z
  /\ run_id params <> ""
  /\ self = backend_of (run_id params)
  /\ exists store,
       _create_tcp_store params = (Ok store, tried)
       /\ calls w = [call_compare_set (_key self) "" _NULL_SENTINEL]
       /\ the_store w =
          fst (store_compare_set store (_key self) "" _NULL_SENTINEL).
Proof.
  unfold create_backend.
  destruct (String.eqb_spec (lower (strip (get params "store_type" "tcp")))
              "tcp") as [Heq|Hne]; cbn [negb]; [|discriminate].
  destruct (_create_tcp_store params) as [[store|e] tried'] eqn:Hboot;
    [|discriminate].
  assert (Hpos : (0 < get_as_int params "read_timeout" 60)%Z).
  { unfold _create_tcp_store in Hboot.
    destruct (parse_rendezvous_endpoint _ _) as [host port].
    destruct (Z.leb_spec (get_as_int params "read_timeout" 60) 0);
      [discriminate Hboot|assumption]. }
  unfold __init__.
  destruct (String.eqb_spec (run_id params) "") as [Hrid|Hrid];
    [discriminate|].
  unfold bind, ret, _call_store, fresh_world.
  cbn [the_store calls app _key].
  destruct (store_compare_set store _ _ _) as [s' [v|exc]] eqn:Hcas.
  - intros [= <- <- <-]. repeat split; trivial.
    exists store. repeat split. cbn [the_store _key]. now rewrite Hcas.
  - destruct (caught_by exc _); discriminate.
Qed.

Lemma X14_created_backend_witness :
  run_id job42_params <> ""
  /\ job42 = backend_of (run_id job42_params).
Proof.
  pose proof (X14_created_backend (store_ops := kv_store)
                (env := fixed_env None true 60
                          (server_fails (Exn RuntimeError)))
                job42_params job42
                (World seeded_store
                   [call_compare_set "torch.rendezvous.job-42" ""
                      _NULL_SENTINEL])
                [true; false] ltac:(vm_compute; reflexivity)) as H.
  split; [exact (proj1 (proj2 (proj2 H)))|].
  exact (proj1 (proj2 (proj2 (proj2 H)))).
Defined.

(** ** The spelling of the store type *)

Lemma drop_space (c : byte) (r : bytes) :
  ascii_space c = true -> drop_one_of whitespace (c :: r) = Some r.
Proof. destruct c; try discriminate; reflexivity. Qed.

Lemma drop_space_rev (c : byte) (r : bytes) :
  ascii_space c = true ->
  drop_one_of (map (@rev byte) whitespace) (c :: r) = Some r.
Proof. destruct c; try discriminate; reflexivity. Qed.

Lemma keep_letter (x l : byte) (r : bytes) :
  In l [x74; x63; x70] -> lower_byte x = l ->
  drop_one_of whitespace (x :: r) = None
  /\ drop_one_of (map (@rev byte) whitespace) (x :: r) = None.
Proof.
  intros Hl Hx. destruct x; cbn in Hx; subst l;
    try (exfalso; cbn in Hl; intuition discriminate);
    split; reflexivity.
Qed.

Lemma lstrip_with_spaces (ws : list bytes) (x : byte) (r : bytes) :
  (forall c r', ascii_space c = true -> drop_one_of ws (c :: r') = Some r') ->
  drop_one_of ws (x :: r) = None ->
  forall pre fuel,
    forallb ascii_space pre = true -> length pre <= fuel ->
    lstrip_with ws fuel (pre ++ x :: r) = x :: r.
Proof.
  intros Hsp Hstop pre. induction pre as [|c pre IH]; intros fuel Hpre Hlen.
  - destruct fuel; [reflexivity|]. cbn [app lstrip_with]. now rewrite Hstop.
  - cbn [forallb] in Hpre. apply andb_true_iff in Hpre as [Hc Hpre].
    destruct fuel; [cbn in Hlen; lia|].
    cbn [app lstrip_with]. rewrite Hsp by exact Hc.
    apply IH; [exact Hpre|cbn in Hlen; lia].
Qed.

Lemma strip_lower_tcp (pre body post : bytes) :
  forallb ascii_space pre = true ->
  forallb ascii_space post = true ->
  map lower_byte body = list_byte_of_string "tcp" ->
  lower (strip (string_of_list_byte (pre ++ body ++ post))) = "tcp".
Proof.
  intros Hpre Hpost Hbody.
  destruct body as [|b1 [|b2 [|b3 [|b4 body]]]]; try discriminate Hbody.
  injection Hbody as H1 H2 H3.
  destruct (keep_letter b1 x74 ([b2; b3] ++ post)) as [Hfirst _];
    [now left|exact H1|].
  destruct (keep_letter b3 x70 ([b2; b1] ++ rev pre)) as [_ Hlast];
    [right; right; now left|exact H3|].
  unfold strip. rewrite list_byte_of_string_of_list_byte.
  rewrite (lstrip_with_spaces whitespace b1 ([b2; b3] ++ post));
    [|exact drop_space|exact Hfirst|exact Hpre|rewrite length_app; lia].
  change (b1 :: [b2; b3] ++ post) with ([b1; b2; b3] ++ post).
  rewrite rev_app_distr. cbn [rev app].
  assert (Hstop : drop_one_of (map (@rev byte) whitespace)
                    (b3 :: [b2; b1]) = None).
  { destruct (keep_letter b3 x70 [b2; b1]) as [_ H];
      [right; right; now left|exact H3|exact H]. }
  rewrite (lstrip_with_spaces (map (@rev byte) whitespace) b3 [b2; b1]);
    [|exact drop_space_rev|exact Hstop| |].
  - cbn [rev app]. unfold lower.
    rewrite list_byte_of_string_of_list_byte. cbn [map].
    now rewrite H1, H2, H3.
  - rewrite forallb_forall in *. intros c Hc. apply Hpost.
    now apply in_rev.
  - rewrite length_rev. cbn [app length]. lia.
Qed.

(** X15.  The store type is read regardless of case and of surrounding
    white space: when the configured store type is ["tcp"] in any mix of
    capitals, between any white space of the ASCII range (or is not
    configured at all: the default is ["tcp"]), [create_backend] gets past
    the test of the store type and is the bootstrap followed by the
    construction of the backend. *)
Theorem X15_store_type_spelling {S : Type} {store_ops : Store S}
    {env : Environment S} (params : RendezvousParameters)
    (pre body post : bytes) :
  forallb ascii_space pre = true ->
  forallb ascii_space post = true ->
  map lower_byte body = list_byte_of_string "tcp" ->
  get params "store_type" "tcp" = string_of_list_byte (pre ++ body ++ post) ->
  lower (strip (get params "store_type" "tcp")) = "tcp"
  /\ create_backend params =
     match _create_tcp_store params with
     | (Raise e, tried) => (Raise e, tried)
     | (Ok store, tried) =>
         match __init__ (run_id params) (fresh_world store) with
         | (Ok self, w) => (Ok (self, w), tried)
         | (Raise e, _) => (Raise e, tried)
         end
     end.
Proof.
  intros Hpre Hpost Hbody Hget.
  assert (Htcp : lower (strip (get params "store_type" "tcp")) = "tcp")
    by (rewrite Hget; now apply strip_lower_tcp).
  split; [exact Htcp|]. unfold create_backend. now rewrite Htcp.
Qed.

Lemma X15_store_type_spelling_witness :
  lower (strip (get loud_tcp_params "store_type" "tcp")) = "tcp"
  /\ lower (strip (get job42_params "store_type" "tcp")) = "tcp".
Proof.
  split.
  - refine (proj1 (X15_store_type_spelling (store_ops := kv_store)
                     (env := fixed_env None true 60
                               (server_fails (Exn RuntimeError)))
                     loud_tcp_params [x20] [x54; x43; x50] [x0a] _ _ _ _));
      reflexivity.
  - refine (proj1 (X15_store_type_spelling (store_ops := kv_store)
                     (env := fixed_env None true 60
                               (server_fails (Exn RuntimeError)))
                     job42_params [] [x74; x63; x70] [] _ _ _ _));
      reflexivity.
Defined.

(** ** Two peers on a fresh key *)

(** X16.  On a key that holds the sentinel, of two [set_state] calls made
    without a token the first one wins, whatever the two states: it
    returns its own state, the second call returns the first one's state
    and token instead of writing, and the store keeps the encoded form of
    the first state. *)
Theorem X16_first_writer_wins (self : C10dRendezvousBackend)
    (x y : bytes) (m : gmap string bytes) (log : list store_call) :
  m !! _key self = Some (Utf8.encode _NULL_SENTINEL) ->
  let w1 := snd (set_state self x PyNone (World m log)) in
  fst (set_state self x PyNone (World m log)) =
  Ok (Some (x, codecs_encode_base64 x))
  /\ fst (set_state self y PyNone w1) = Ok (Some (x, codecs_encode_base64 x))
  /\ the_store (snd (set_state self y PyNone w1)) =
     <[_key self := codecs_encode_base64 x]> m.
Proof.
  intros Hm. cbv zeta.
  assert (Hcur : current_value m (_key self) = Utf8.encode _NULL_SENTINEL)
    by (unfold current_value; now rewrite Hm).
  assert (Hfirst : set_state self x PyNone (World m log) =
                   (Ok (Some (x, codecs_encode_base64 x)),
                    World (<[_key self := codecs_encode_base64 x]> m)
                      (log ++ [call_compare_set (_key self) _NULL_SENTINEL
                                 (encoded_state x)]))).
  { rewrite set_state_falsy by reflexivity.
    rewrite kv_compare_set_and_decode. cbv zeta.
    rewrite Hcur, bytes_eqb_refl, current_value_insert, encode_encoded_state.
    now rewrite _decode_state_encode. }
  rewrite Hfirst. cbn [fst snd]. split; [reflexivity|].
  rewrite set_state_falsy by reflexivity.
  rewrite kv_compare_set_and_decode. cbv zeta.
  rewrite current_value_insert.
  rewrite bytes_eqb_neq by apply encode_not_sentinel.
  cbn [fst snd the_store]. rewrite current_value_insert.
  now rewrite _decode_state_encode.
Qed.

Lemma X16_first_writer_wins_witness :
  fst (set_state job42 epoch2 PyNone
         (snd (set_state job42 epoch1 PyNone seeded))) =
  Ok (Some (epoch1, codecs_encode_base64 epoch1)).
Proof.
  refine (proj1 (proj2 (X16_first_writer_wins job42 epoch1 epoch2
                          seeded_store [] _))).
  reflexivity.
Defined.
